(** * A shallow embedding of [main.py]: the screen-driven engagement loop

    The program captures a region of the primary monitor, sends it to a
    multimodal model together with the recent action log, executes the
    keystroke primitive the model chose, logs it, and repeats.

    Everything the program does to the outside (keystrokes, sleeps, the
    [logging] module, the screen grabber, the model endpoint, [log.json])
    is threaded through an explicit [world]; what the outside decides
    (the monitor geometry, the answers of the endpoint, the clock, the
    policy document) is read from an [env]. *)

From Stdlib Require Import ZArith List String Ascii Bool Lia DecimalString QArith.
Import ListNotations.
Local Open Scope string_scope.
Local Open Scope Z_scope.

Set Implicit Arguments.
Set Warnings "-register-all".

(** ** Python strings

    A [str] is modelled as a [string]; one [ascii] stands for one character
    of the Latin-1 range (code points 0 to 255). *)

Module PyStr.

(** [needle in hay] *)
Fixpoint contains (needle hay : string) : bool :=
  if String.prefix needle hay then true
  else match hay with
       | EmptyString => false
       | String _ rest => contains needle rest
       end.

(** [sep.join(parts)] *)
Definition join (sep : string) (parts : list string) : string :=
  String.concat sep parts.

(** [str(n)] for an [int] *)
Definition of_int (n : Z) : string :=
  NilZero.string_of_int (Z.to_int n).

(** [len(s)] *)
Definition len (s : string) : Z := Z.of_nat (String.length s).

(** [c.isalpha()] for one character: the letters of Latin-1, that is
    A-Z, a-z, U+00AA, U+00B5, U+00BA, U+00C0-U+00D6, U+00D8-U+00F6,
    U+00F8-U+00FF. *)
Definition char_isalpha (c : ascii) : bool :=
  let n := Z.of_nat (nat_of_ascii c) in
  ((65 <=? n) && (n <=? 90)) || ((97 <=? n) && (n <=? 122))
  || (n =? 170) || (n =? 181) || (n =? 186)
  || ((192 <=? n) && (n <=? 214)) || ((216 <=? n) && (n <=? 246))
  || ((248 <=? n) && (n <=? 255)).

(** [c.lower()] for one character: A-Z and U+00C0-U+00DE (but U+00D7)
    move up by 32, everything else stays. *)
Definition char_lower (c : ascii) : ascii :=
  let n := Z.of_nat (nat_of_ascii c) in
  if ((65 <=? n) && (n <=? 90))
     || ((192 <=? n) && (n <=? 214)) || ((216 <=? n) && (n <=? 222))
  then ascii_of_nat (Z.to_nat (n + 32))
  else c.

Definition chars (s : string) : list ascii := list_ascii_of_string s.

(** [s.isalpha()]: every character is a letter and there is at least one *)
Definition isalpha (s : string) : bool :=
  negb (String.eqb s "") && forallb char_isalpha (chars s).

(** [s.lower()] *)
Definition lower (s : string) : string :=
  string_of_list_ascii (map char_lower (chars s)).

(** a one-character [str] *)
Definition of_char (c : ascii) : string := String c EmptyString.

(** [xs[k:]] on a list: a negative start counts from the end, and both
    ends are clamped. *)
Definition slice_from {A : Type} (k : Z) (xs : list A) : list A :=
  let n := Z.of_nat (List.length xs) in
  let start := if k <? 0 then Z.max 0 (k + n) else Z.min k n in
  skipn (Z.to_nat start) xs.

End PyStr.

(** ** Values *)

(** What [json.loads] hands back.  Numbers are the integral ones. *)
Inductive json : Type :=
| JNull
| JBool (b : bool)
| JNum (n : Z)
| JStr (s : string)
| JArr (items : list json)
| JObj (fields : list (string * json)).

(** An argument of a function call in a model response: nothing, a
    boolean, a number or a string.  The lists and structs the endpoint
    can also send are not modelled; what is stated about the arguments
    says which values it covers. *)
Inductive argval : Type :=
| ANone                 (* the key is not there: [args.get] gives None *)
| ABool (b : bool)
| ANum (n : Z)          (* a number (the endpoint sends floats), integral *)
| AStr (s : string).

(** [bool(v)] *)
Definition truthy (v : argval) : bool :=
  match v with
  | ANone => false
  | ABool b => b
  | ANum n => negb (n =? 0)
  | AStr s => negb (String.eqb s "")
  end.

(** [f"{v}"] *)
Definition arg_str (v : argval) : string :=
  match v with
  | ANone => "None"
  | ABool true => "True"
  | ABool false => "False"
  | ANum n => PyStr.of_int n ++ ".0"
  | AStr s => s
  end.

(** [type(v).__name__] *)
Definition arg_type_name (v : argval) : string :=
  match v with
  | ANone => "NoneType"
  | ABool _ => "bool"
  | ANum _ => "float"
  | AStr _ => "str"
  end.

(** [fn.name], [fn.args] *)
Record function_call : Type := FunctionCall {
  name : string;
  args : list (string * argval)
}.

(** [fn.args.get(key)] *)
Fixpoint args_get (kvs : list (string * argval)) (key : string) : argval :=
  match kvs with
  | [] => ANone
  | (k, v) :: rest => if String.eqb k key then v else args_get rest key
  end.

(** One part of a response: [part.text] (empty when there is none) and
    [part.function_call] (falsy when there is none). *)
Record part : Type := Part {
  text : string;
  fn_call : option function_call
}.

(** A screen region, and the geometry of a monitor: the dicts with keys
    top, left, width, height. *)
Record region : Type := Region {
  top : Z;
  left : Z;
  width : Z;
  height : Z
}.

(** A captured image.  Its pixels are whatever was on screen at the grab;
    [shot] is the ordinal of that grab (1 for the first one of the run). *)
Record image : Type := Image {
  shot : nat;
  captured_from : region
}.

(** [datetime.now()], through the two formats the program asks for. *)
Record datetime : Type := DateTime {
  isoformat : string;            (* .isoformat() *)
  strftime_stamp : string        (* .strftime('%Y%m%d_%H%M%S') *)
}.

(** How one trip to the model endpoint ends. *)
Inductive reply : Type :=
| UploadFails (e : string)       (* genai.upload_file raises; str(e) = e *)
| SendFails (e : string)         (* chat.send_message raises; str(e) = e *)
| Response (parts : list part) (cleanup : option string).
    (* response.parts; [cleanup] is str(e) when os.remove then raises *)

(** ** The outside *)

Record env : Type := Env {
  monitor : region;                    (* sct.monitors[1] *)
  model_reply : nat -> reply;          (* the k-th trip to the endpoint *)
  clock : nat -> datetime;             (* the k-th reading of the clock *)
  identity : string;                   (* EXPERT_CONTEXT['identity'] *)
  tasks : list string;                 (* EXPERT_CONTEXT['tasks'] *)
  rules : list string;                 (* EXPERT_CONTEXT['rules'] *)
  script_dir : string;                 (* os.path.dirname(__file__) *)
  cwd : string;                        (* the working directory *)
  container_str : json -> string       (* str() of a decoded list or dict *)
}.

(** What is on disk at [LOG_FILE]. *)
Inductive file_data : Type :=
| Unreadable                     (* read_text raises *)
| Garbled (raw : string)         (* text that json.loads refuses *)
| Document (doc : json).         (* text of the JSON document [doc] *)

(** Effects, in the order they happen. *)
Inductive event : Type :=
| Write (message : string)             (* pyautogui.write *)
| KeyDown (key : string)               (* pyautogui.keyDown *)
| KeyUp (key : string)                 (* pyautogui.keyUp *)
| Hotkey (keys : list string)          (* pyautogui.hotkey *)
| Press (key : string)                 (* pyautogui.press *)
| Click (x y : Z)                      (* pyautogui.click *)
| Sleep (ms : Z)                       (* time.sleep, in milliseconds *)
| Grab (r : region)                    (* sct.grab *)
| SaveImage (path : string) (img : image)   (* image.save *)
| Upload (path : string)               (* genai.upload_file *)
| SendMessage (context : string) (path : string)  (* chat.send_message *)
| Remove (path : string)               (* os.remove *)
| Makedirs (path : string)             (* os.makedirs *)
| Print (line : string)                (* print *)
| LogInfo (msg : string)               (* logging.info *)
| LogWarning (msg : string)            (* logging.warning *)
| LogError (msg : string).             (* logging.error *)

Record world : Type := World {
  log_file : option file_data;   (* LOG_FILE; None when it does not exist *)
  log_writable : bool;           (* false: write_text raises *)
  requests : nat;                (* trips to the model endpoint so far *)
  grabs : nat;                   (* screen grabs so far *)
  ticks : nat;                   (* readings of the clock so far *)
  trace : list event             (* effects so far, oldest first *)
}.

(** ** Computations: state, and exceptions that keep the state *)

Record exn : Type := Exn {
  exn_type : string;             (* type(e).__name__ *)
  exn_msg : string               (* str(e) *)
}.

Inductive result (A : Type) : Type :=
| Ret (a : A)
| Raise (e : exn).
Arguments Ret {A} a.
Arguments Raise {A} e.

Definition M (A : Type) : Type := world -> result A * world.

Definition ret {A} (a : A) : M A := fun w => (Ret a, w).

Definition raise {A} (e : exn) : M A := fun w => (Raise e, w).

Definition bind {A B} (m : M A) (k : A -> M B) : M B :=
  fun w => match m w with
           | (Ret a, w1) => k a w1
           | (Raise e, w1) => (Raise e, w1)
           end.

(** [try: body  except Exception as e: handler(e)] *)
Definition try_except {A} (body : M A) (handler : exn -> M A) : M A :=
  fun w => match body w with
           | (Ret a, w1) => (Ret a, w1)
           | (Raise e, w1) => handler e w1
           end.

Declare Scope py_scope.
Delimit Scope py_scope with py.
Notation "x <- m ;; k" := (bind m (fun x => k))
  (at level 61, m at next level, right associativity) : py_scope.
Notation "' pat <- m ;; k" := (bind m (fun x => match x with pat => k end))
  (at level 61, pat pattern, m at next level, right associativity) : py_scope.
Notation "m ;; k" := (bind m (fun _ => k))
  (at level 61, right associativity) : py_scope.
Open Scope py_scope.

(** [for x in xs: body(x)] *)
Fixpoint for_each {A} (xs : list A) (body : A -> M unit) : M unit :=
  match xs with
  | [] => ret tt
  | x :: rest => body x ;; for_each rest body
  end.

Definition emit (e : event) : M unit :=
  fun w => (Ret tt, World (log_file w) (log_writable w) (requests w)
                          (grabs w) (ticks w) (trace w ++ [e])).

(** [time.sleep(secs)], with the length given in milliseconds *)
Definition sleep (ms : Z) : M unit :=
  if ms <? 0 then raise (Exn "ValueError" "sleep length must be non-negative")
  else emit (Sleep ms).

Definition log_info (msg : string) : M unit := emit (LogInfo msg).
Definition log_warning (msg : string) : M unit := emit (LogWarning msg).
Definition log_error (msg : string) : M unit := emit (LogError msg).

(** ** The program *)

Section Program.

Variable E : env.

(** [datetime.now()] *)
Definition now : M datetime :=
  fun w => (Ret (clock E (ticks w)),
            World (log_file w) (log_writable w) (requests w)
                  (grabs w) (S (ticks w)) (trace w)).

(** *** The action log: [log.json] *)

(** [LOG_FILE.exists()] *)
Definition log_exists : M bool :=
  fun w => (Ret (match log_file w with Some _ => true | None => false end), w).

(** [json.loads(LOG_FILE.read_text())]; the messages are the library's *)
Definition read_log : M json :=
  fun w => match log_file w with
           | None =>
               (Raise (Exn "FileNotFoundError"
                           "[Errno 2] No such file or directory: 'log.json'"), w)
           | Some Unreadable =>
               (Raise (Exn "PermissionError"
                           "[Errno 13] Permission denied: 'log.json'"), w)
           | Some (Garbled _) =>
               (Raise (Exn "JSONDecodeError"
                           "Expecting value: line 1 column 1 (char 0)"), w)
           | Some (Document doc) => (Ret doc, w)
           end.

(** [LOG_FILE.write_text(json.dumps(doc, indent=2))].  A write that fails
    is one that is refused when the file is opened; one that breaks off
    half-way is not modelled. *)
Definition write_log (doc : json) : M unit :=
  fun w => if log_writable w
           then (Ret tt, World (Some (Document doc)) (log_writable w)
                               (requests w) (grabs w) (ticks w) (trace w))
           else (Raise (Exn "PermissionError"
                            "[Errno 13] Permission denied: 'log.json'"), w).

(** [type(v).__name__] of a decoded value *)
Definition json_type_name (v : json) : string :=
  match v with
  | JNull => "NoneType"
  | JBool _ => "bool"
  | JNum _ => "int"
  | JStr _ => "str"
  | JArr _ => "list"
  | JObj _ => "dict"
  end.

(** [logs.append]: only a list has it *)
Definition append_method (logs : json) : M (list json) :=
  match logs with
  | JArr items => ret items
  | v => raise (Exn "AttributeError"
                    ("'" ++ json_type_name v ++ "' object has no attribute 'append'"))
  end.

(** The dict that [save_log] appends. *)
Definition entry (timestamp action result : string) : json :=
  JObj [("timestamp", JStr timestamp); ("action", JStr action);
        ("result", JStr result)].

Definition save_log (action result : string) : M unit :=
  try_except
    (logs <- read_log ;;
     items <- append_method logs ;;
     t <- now ;;
     write_log (JArr (items ++ [entry (isoformat t) action result])) ;;
     log_info ("[LOG] " ++ action ++ ": " ++ result))
    (fun e => log_error ("failed to save log: " ++ exn_msg e)).

(** [logs[k:]], and the list Python then iterates over (a [str] is sliced
    and iterated character by character; the messages are the
    interpreter's) *)
Definition slice_of (k : Z) (logs : json) : M (list json) :=
  match logs with
  | JArr items => ret (PyStr.slice_from k items)
  | JStr s =>
      ret (map (fun c => JStr (PyStr.of_char c))
               (PyStr.slice_from k (PyStr.chars s)))
  | JObj _ => raise (Exn "TypeError" "unhashable type: 'slice'")
  | v => raise (Exn "TypeError"
                    ("'" ++ json_type_name v ++ "' object is not subscriptable"))
  end.

Fixpoint fields_get (fields : list (string * json)) (key : string) : option json :=
  match fields with
  | [] => None
  | (k, v) :: rest => if String.eqb k key then Some v else fields_get rest key
  end.

(** [log[key]] *)
Definition item (log : json) (key : string) : M json :=
  match log with
  | JObj fields =>
      match fields_get fields key with
      | Some v => ret v
      | None => raise (Exn "KeyError" ("'" ++ key ++ "'"))
      end
  | JStr _ => raise (Exn "TypeError" "string indices must be integers, not 'str'")
  | JArr _ =>
      raise (Exn "TypeError" "list indices must be integers or slices, not str")
  | v => raise (Exn "TypeError"
                    ("'" ++ json_type_name v ++ "' object is not subscriptable"))
  end.

(** [f"{v}"] of a decoded value *)
Definition json_str (v : json) : string :=
  match v with
  | JNull => "None"
  | JBool true => "True"
  | JBool false => "False"
  | JNum n => PyStr.of_int n
  | JStr s => s
  | v => container_str E v
  end.

(** [f"[{log['timestamp']}] {log['action']}: {log['result']}"] *)
Definition format_log (log : json) : M string :=
  t <- item log "timestamp" ;;
  a <- item log "action" ;;
  r <- item log "result" ;;
  ret ("[" ++ json_str t ++ "] " ++ json_str a ++ ": " ++ json_str r).

(** [[format(log) for log in recent]] *)
Fixpoint format_logs (recent : list json) : M (list string) :=
  match recent with
  | [] => ret []
  | log :: rest =>
      line <- format_log log ;;
      lines <- format_logs rest ;;
      ret (line :: lines)
  end.

Definition newline : string := String (ascii_of_nat 10) EmptyString.

Definition get_recent_logs (n : Z) : M string :=
  try_except
    (present <- log_exists ;;
     if negb present then ret ""
     else
       logs <- read_log ;;
       recent <- slice_of (- n) logs ;;
       lines <- format_logs recent ;;
       ret (PyStr.join newline lines))
    (fun e => log_error ("failed to read logs: " ++ exn_msg e) ;; ret "").

(** *** The capture adapter *)

(** [int(x)] for a float [x]: truncation towards zero.  A float is
    modelled by the rational it denotes. *)
Definition int_of_float (x : Q) : Z := Z.quot (Qnum x) (Z.pos (Qden x)).

(** [h * 0.625] for an int [h].  0.625 is 5/8, a binary fraction, so the
    binary64 product is the exact one as long as [5 * h] fits in 53 bits.
    Beyond that the product is rounded and this value is no longer the
    one the code computes: what is stated about the exact height carries
    a bound on [h]. *)
Definition times_0_625 (h : Z) : Q := (inject_Z h * (625 # 1000))%Q.

(** [sct.grab(region)] and [PIL.Image.frombytes] on its pixels *)
Definition grab (r : region) : M image :=
  fun w => (Ret (Image (S (grabs w)) r),
            World (log_file w) (log_writable w) (requests w)
                  (S (grabs w)) (ticks w) (trace w ++ [Grab r])).

Definition capture_screenshot : M (image * region) :=
  let mon := monitor E in
  let w := width mon / 3 in
  let h := int_of_float (times_0_625 (height mon)) in
  let r := Region (top mon) (left mon) w h in
  img <- grab r ;;
  ret (img, r).

Definition click_region_center (r : region) : M unit :=
  let center_x := left r + width r / 2 in
  let center_y := top r + height r / 2 in
  emit (Click center_x center_y).

(** *** The action executor *)

Definition wait_for_load : M bool :=
  sleep 3000 ;;
  ret true.

Definition press_option : M unit :=
  loaded <- wait_for_load ;;
  if loaded then
    emit (KeyDown "option") ;;
    sleep 100 ;;
    emit (KeyUp "option")
  else
    emit (Print "Page did not load within the expected time").

(** One keystroke and the pause after it: the body of both typing loops. *)
Definition keystroke (c : ascii) : M unit :=
  emit (Write (PyStr.of_char c)) ;;
  sleep 100.

Definition type_letters (letters : argval) : M (image * region) :=
  match letters with
  | AStr s =>
      if negb ((2 <=? PyStr.len s) && (PyStr.len s <=? 3)) then
        raise (Exn "ValueError" "Must provide 2-3 letters")
      else if negb (PyStr.isalpha s) then
        raise (Exn "ValueError" "Input must contain only letters")
      else
        for_each (PyStr.chars (PyStr.lower s)) keystroke ;;
        press_option ;;
        capture_screenshot
  | _ => raise (Exn "ValueError" "Input must be a string")
  end.

Definition type_text (txt : argval) : M unit :=
  match txt with
  | AStr s => for_each (PyStr.chars s) keystroke
  | v => raise (Exn "TypeError"
                    ("'" ++ arg_type_name v ++ "' object is not iterable"))
  end.

Definition navigate_chrome : M unit :=
  sleep 500 ;;
  emit (Hotkey ["command"; "t"]) ;;
  sleep 500 ;;
  emit (Write "x.com") ;;
  emit (Press "enter") ;;
  press_option.

(** *** The model client *)

(** The endpoint's answer to this trip. *)
Definition next_reply : M reply :=
  fun w => (Ret (model_reply E (requests w)),
            World (log_file w) (log_writable w) (S (requests w))
                  (grabs w) (ticks w) (trace w)).

(** [genai.upload_file(temp_path, ...)] *)
Definition upload_file (path : string) (r : reply) : M unit :=
  match r with
  | UploadFails e => raise (Exn "Exception" e)
  | _ => emit (Upload path)
  end.

(** [chat.send_message([context, file, "What is next?"])] and
    [response.parts] *)
Definition send_message (context path : string) (r : reply) : M (list part) :=
  match r with
  | Response parts _ => emit (SendMessage context path) ;; ret parts
  | SendFails e => raise (Exn "Exception" e)
  | UploadFails e => raise (Exn "Exception" e)
  end.

(** [os.remove(temp_path)] *)
Definition os_remove (path : string) (r : reply) : M unit :=
  match r with
  | Response _ (Some e) => raise (Exn "OSError" e)
  | _ => emit (Remove path)
  end.

Definition indent : string := "        ".

(** The f-string that builds the prompt. *)
Definition build_context (recent_logs : string) : string :=
  identity E ++ newline
  ++ indent ++ newline
  ++ indent ++ "Recent actions:" ++ newline
  ++ indent ++ recent_logs ++ newline
  ++ indent ++ newline
  ++ indent ++ "Your tasks:" ++ newline
  ++ indent ++ PyStr.join " and " (tasks E) ++ newline
  ++ indent ++ newline
  ++ indent ++ "Navigation rules:" ++ newline
  ++ indent ++ PyStr.join " " (rules E) ++ newline
  ++ indent.

(** The body of [for part in response.parts]. *)
Definition dispatch (p : part) : M unit :=
  (if negb (String.eqb (text p) "")
   then log_info ("received text: " ++ text p)
   else ret tt) ;;
  match fn_call p with
  | Some fn =>
      if String.eqb (name fn) "type_letters" then
        let letters := args_get (args fn) "letters" in
        if truthy letters then
          log_info ("executing type_letters with: " ++ arg_str letters) ;;
          type_letters letters ;;
          save_log "type_letters" (arg_str letters)
        else ret tt
      else if String.eqb (name fn) "type_text" then
        let txt := args_get (args fn) "text" in
        if truthy txt then
          log_info ("executing type_text with: " ++ arg_str txt) ;;
          type_text txt ;;
          save_log "type_text" (arg_str txt)
        else ret tt
      else
        log_warning ("unknown function call: " ++ name fn)
  | None => ret tt
  end.

(** The [try] block of [twitter_helper]. *)
Definition analyze (img : image) : M bool :=
  t <- now ;;
  let temp_path := "temp_screenshot_" ++ strftime_stamp t ++ ".jpg" in
  emit (SaveImage temp_path img) ;;
  r <- next_reply ;;
  upload_file temp_path r ;;
  recent_logs <- get_recent_logs 10 ;;
  let context := build_context recent_logs in
  parts <- send_message context temp_path r ;;
  for_each parts dispatch ;;
  os_remove temp_path r ;;
  ret true.

(** [twitter_helper] calls itself only with [max_retries > 0] and then
    with [max_retries - 1]; [fuel] bounds the depth of those calls. *)
Fixpoint twitter_helper_from (fuel : nat) (img : image)
    (max_retries retry_delay : Z) : M bool :=
  try_except (analyze img)
    (fun e =>
       let error_msg := "error analyzing screenshot: " ++ exn_msg e in
       log_error error_msg ;;
       save_log "error" error_msg ;;
       if PyStr.contains "429" (exn_msg e) && (max_retries >? 0) then
         let retry_msg := "hit rate limit, waiting "
                          ++ PyStr.of_int retry_delay
                          ++ " seconds before retry" in
         log_warning retry_msg ;;
         save_log "warning" retry_msg ;;
         sleep (1000 * retry_delay) ;;
         match fuel with
         | S fuel' => twitter_helper_from fuel' img (max_retries - 1) retry_delay
         | O => ret false
         end
       else ret false).

Definition twitter_helper (img : image) (max_retries retry_delay : Z) : M bool :=
  twitter_helper_from (Z.to_nat max_retries) img max_retries retry_delay.

(** *** The engagement loop *)

Definition save_screenshot (img : image) : M string :=
  t <- now ;;
  let filename := "screenshot_" ++ strftime_stamp t ++ ".png" in
  let filepath := script_dir E ++ "/screenshots/" ++ filename in
  emit (SaveImage filepath img) ;;
  emit (Print ("Saved screenshot: " ++ filename)) ;;
  ret filepath.

(** Everything [main] does before [while True]. *)
Definition bootstrap : M image :=
  emit (Print "Starting social media engagement assistant. Press Ctrl+C to stop.") ;;
  emit (Makedirs "screenshots") ;;
  emit (Print ("Screenshots will be saved in: " ++ cwd E ++ "/screenshots")) ;;
  log_info "capturing initial screenshot..." ;;
  '(screenshot, r) <- capture_screenshot ;;
  log_info "clicking center..." ;;
  click_region_center r ;;
  log_info "navigating to x.com..." ;;
  navigate_chrome ;;
  '(screenshot, r) <- capture_screenshot ;;
  save_screenshot screenshot ;;
  log_info "starting main loop..." ;;
  ret screenshot.

(** One turn of [while True]: from the screenshot it starts with to the
    screenshot the next turn starts with. *)
Definition turn (screenshot : image) : M image :=
  success <- twitter_helper screenshot 3 60 ;;
  if negb success then
    log_error "no analysis returned, continuing..." ;;
    sleep 5000 ;;
    ret screenshot
  else
    log_info "capturing next screenshot..." ;;
    '(screenshot', r) <- capture_screenshot ;;
    save_screenshot screenshot' ;;
    ret screenshot'.

(** [n] turns of the loop. *)
Fixpoint turns (n : nat) (screenshot : image) : M image :=
  match n with
  | O => ret screenshot
  | S n' => screenshot' <- turn screenshot ;; turns n' screenshot'
  end.

(** The [try] block of [main], stopped at the head of turn [n] of the loop
    (counting from 0): the result is the screenshot that turn [n] hands to
    [twitter_helper]. *)
Definition upto (n : nat) : M image :=
  screenshot <- bootstrap ;; turns n screenshot.

(** [main], stopped after [n] turns of its loop. *)
Definition main (n : nat) : M image :=
  try_except (upto n)
    (fun e => log_error ("Error in main loop: " ++ exn_msg e) ;; raise e).

End Program.

(** The world of a fresh run: the module body has just created
    [log.json] as an empty list. *)
Definition fresh_world : world :=
  World (Some (Document (JArr []))) true 0 0 0 [].

(** * Properties *)

Unset Implicit Arguments.

(** ** Running computations *)

Lemma try_ret {A} (m : M A) (h : exn -> M A) (w w1 : world) (a : A) :
  m w = (Ret a, w1) -> try_except m h w = (Ret a, w1).
Proof. intros H. unfold try_except. now rewrite H. Qed.

(** The world after one more effect. *)
Definition logged (w : world) (evs : list event) : world :=
  World (log_file w) (log_writable w) (requests w) (grabs w) (ticks w)
        (trace w ++ evs).

Lemma emit_run (e : event) (w : world) : emit e w = (Ret tt, logged w [e]).
Proof. reflexivity. Qed.

Lemma logged_logged (w : world) (xs ys : list event) :
  logged (logged w xs) ys = logged w (xs ++ ys).
Proof. unfold logged; simpl. now rewrite <- app_assoc. Qed.

Lemma logged_nil (w : world) : logged w [] = w.
Proof. destruct w; unfold logged; simpl. now rewrite app_nil_r. Qed.

(** ** The action log *)

(** The entries [save_log] can append to: the log file holds a JSON list
    and can be written. *)
Definition appendable (w : world) : option (list json) :=
  match log_file w with
  | Some (Document (JArr items)) => if log_writable w then Some items else None
  | _ => None
  end.

(** What [save_log] does, case by case. *)
Lemma save_log_run (E : env) (action result : string) (w : world) :
  exists w',
    save_log E action result w = (Ret tt, w') /\
    requests w' = requests w /\ grabs w' = grabs w /\
    log_writable w' = log_writable w /\
    match appendable w with
    | Some items =>
        log_file w'
        = Some (Document
                  (JArr (items ++ [entry (isoformat (clock E (ticks w)))
                                         action result])))
        /\ ticks w' = S (ticks w)
        /\ trace w'
           = (trace w ++ [LogInfo ("[LOG] " ++ action ++ ": " ++ result)])%list
    | None =>
        log_file w' = log_file w
        /\ exists msg,
             trace w'
             = (trace w ++ [LogError ("failed to save log: " ++ msg)])%list
    end.
Proof.
  unfold save_log, appendable, try_except, bind, read_log.
  destruct (log_file w) as [[ | raw | doc] | ] eqn:Hf; simpl.
  1, 2, 4: eexists; split; [reflexivity | simpl; rewrite ?Hf; repeat split; eauto].
  destruct doc; simpl;
    try (eexists; split; [reflexivity | simpl; rewrite ?Hf; repeat split; eauto]).
  unfold write_log; simpl.
  destruct (log_writable w) eqn:Hw; simpl;
    eexists; (split; [reflexivity | simpl; rewrite ?Hf, ?Hw; repeat split; eauto]).
Qed.

(** Reading is pure: formatting never touches the world. *)
Lemma item_pure (log : json) (key : string) (w : world) :
  exists r, item log key w = (r, w).
Proof.
  unfold item. destruct log; try (eexists; reflexivity).
  destruct (fields_get fields key); eexists; reflexivity.
Qed.

Lemma format_log_pure (E : env) (log : json) (w : world) :
  exists r, format_log E log w = (r, w).
Proof.
  unfold format_log, bind.
  destruct (item_pure log "timestamp" w) as [[t | e] ->]; [ | eauto].
  destruct (item_pure log "action" w) as [[a | e] ->]; [ | eauto].
  destruct (item_pure log "result" w) as [[r | e] ->]; eauto.
  eexists; reflexivity.
Qed.

Lemma format_logs_pure (E : env) (recent : list json) (w : world) :
  exists r, format_logs E recent w = (r, w).
Proof.
  induction recent as [ | log rest IH]; simpl.
  - eexists; reflexivity.
  - unfold bind.
    destruct (format_log_pure E log w) as [[line | e] ->]; [ | eauto].
    destruct IH as [[lines | e] ->]; eauto.
    eexists; reflexivity.
Qed.

Lemma slice_of_pure (k : Z) (logs : json) (w : world) :
  exists r, slice_of k logs w = (r, w).
Proof. destruct logs; eexists; reflexivity. Qed.

(** [get_recent_logs] always returns; it changes nothing but the trace,
    and the trace only by one [logging.error] line when reading failed. *)
Lemma get_recent_logs_run (E : env) (n : Z) (w : world) :
  exists s evs,
    get_recent_logs E n w = (Ret s, logged w evs) /\
    (evs = []
     \/ s = "" /\ exists msg, evs = [LogError ("failed to read logs: " ++ msg)]).
Proof.
  unfold get_recent_logs, try_except, bind, log_exists, read_log.
  cbv beta.
  destruct (log_file w) as [[ | raw | doc] | ] eqn:Hf; simpl;
    rewrite ?Hf; simpl.
  - do 2 eexists. split; [rewrite <- Hf; reflexivity | right; eauto].
  - do 2 eexists. split; [rewrite <- Hf; reflexivity | right; eauto].
  - destruct (slice_of_pure (- n) doc w) as [[recent | e] ->].
    + destruct (format_logs_pure E recent w) as [[lines | e] ->].
      * exists (PyStr.join newline lines), []. rewrite logged_nil.
        now split; [ | left].
      * do 2 eexists. split; [reflexivity | right; eauto].
    + do 2 eexists. split; [reflexivity | right; eauto].
  - exists "", []. rewrite logged_nil. now split; [ | left].
Qed.

(** An entry as a triple, the dict [save_log] writes for it, and the line
    [get_recent_logs] prints for it. *)
Definition entry_of (e : string * string * string) : json :=
  let '(t, a, r) := e in entry t a r.

Definition line_of (e : string * string * string) : string :=
  let '(t, a, r) := e in "[" ++ t ++ "] " ++ a ++ ": " ++ r.

(** The last [k] elements of a list. *)
Definition last_n {A : Type} (k : nat) (xs : list A) : list A :=
  skipn (List.length xs - k) xs.

Lemma format_logs_entries (E : env) (es : list (string * string * string))
    (w : world) :
  format_logs E (map entry_of es) w = (Ret (map line_of es), w).
Proof.
  induction es as [ | [[t a] r] es IH]; simpl; [reflexivity | ].
  unfold bind at 1. unfold format_log, bind at 1; simpl.
  unfold bind at 1. now rewrite IH.
Qed.

Lemma slice_from_positive {A : Type} (n : Z) (xs : list A) :
  1 <= n ->
  PyStr.slice_from (- n) xs
  = last_n (Z.to_nat (Z.min n (Z.of_nat (List.length xs)))) xs.
Proof.
  intros Hn. unfold PyStr.slice_from, last_n.
  destruct (- n <? 0) eqn:Hneg; [ | apply Z.ltb_ge in Hneg; lia].
  f_equal. lia.
Qed.

Lemma slice_from_zero {A : Type} (xs : list A) : PyStr.slice_from (- 0) xs = xs.
Proof.
  unfold PyStr.slice_from. simpl.
  rewrite Z.min_l by lia. reflexivity.
Qed.

Lemma last_n_map {A B : Type} (f : A -> B) (k : nat) (xs : list A) :
  last_n k (map f xs) = map f (last_n k xs).
Proof. unfold last_n. now rewrite length_map, skipn_map. Qed.

(** For [n >= 1] and a log of well-formed entries, [get_recent_logs n]
    prints the last [min n total] entries, oldest first, one per line. *)
Lemma get_recent_logs_positive (E : env) (n : Z)
    (es : list (string * string * string)) (w : world) :
  1 <= n ->
  log_file w = Some (Document (JArr (map entry_of es))) ->
  get_recent_logs E n w
  = (Ret (PyStr.join newline
            (map line_of
                 (last_n (Z.to_nat (Z.min n (Z.of_nat (List.length es)))) es))),
     w).
Proof.
  intros Hn Hf.
  unfold get_recent_logs, try_except, bind at 1, log_exists. rewrite Hf; simpl.
  unfold bind at 1, read_log. rewrite Hf.
  unfold bind at 1, slice_of, ret.
  rewrite slice_from_positive by assumption.
  rewrite last_n_map, length_map. unfold bind.
  now rewrite format_logs_entries.
Qed.

(** Absent, unreadable or garbled storage: the empty string, no exception. *)
Lemma get_recent_logs_fails_soft (E : env) (n : Z) (w : world) :
  match log_file w with
  | None => get_recent_logs E n w = (Ret "", w)
  | Some (Document _) => True
  | Some _ =>
      exists msg,
        get_recent_logs E n w
        = (Ret "", logged w [LogError ("failed to read logs: " ++ msg)])
  end.
Proof.
  unfold get_recent_logs, try_except, bind, log_exists, read_log.
  cbv beta.
  destruct (log_file w) as [[ | raw | doc] | ] eqn:Hf; simpl;
    rewrite ?Hf; simpl; trivial;
    eexists; rewrite <- Hf; reflexivity.
Qed.

(** ** What a computation leaves alone

    Only [next_reply] counts a trip to the endpoint, nothing makes the log
    file writable or not, grabs are only added, and the trace only grows. *)

Record frame (w w' : world) : Prop := Frame {
  frame_requests : requests w' = requests w;
  frame_writable : log_writable w' = log_writable w;
  frame_grabs : (grabs w <= grabs w')%nat;
  frame_trace : exists evs, trace w' = (trace w ++ evs)%list
}.

Definition framed {A} (m : M A) : Prop :=
  forall w r w', m w = (r, w') -> frame w w'.

Lemma frame_refl (w : world) : frame w w.
Proof. split; auto. exists []. now rewrite app_nil_r. Qed.

Lemma frame_trans (w1 w2 w3 : world) : frame w1 w2 -> frame w2 w3 -> frame w1 w3.
Proof.
  intros [R1 W1 G1 [e1 T1]] [R2 W2 G2 [e2 T2]]. split; try congruence; try lia.
  exists (e1 ++ e2)%list. now rewrite T2, T1, app_assoc.
Qed.

Lemma frame_logged (w : world) (evs : list event) : frame w (logged w evs).
Proof. split; simpl; eauto. Qed.

Lemma framed_ret {A} (a : A) : framed (ret a).
Proof. intros w r w' H. inversion H. apply frame_refl. Qed.

Lemma framed_raise {A} (e : exn) : framed (@raise A e).
Proof. intros w r w' H. inversion H. apply frame_refl. Qed.

Lemma framed_bind {A B} (m : M A) (k : A -> M B) :
  framed m -> (forall a, framed (k a)) -> framed (bind m k).
Proof.
  intros Hm Hk w r w' H. unfold bind in H.
  destruct (m w) as [[a | e] w1] eqn:Hmw.
  - eapply frame_trans; [eapply Hm | eapply Hk]; eauto.
  - inversion H; subst. eapply Hm; eauto.
Qed.

Lemma framed_try {A} (m : M A) (h : exn -> M A) :
  framed m -> (forall e, framed (h e)) -> framed (try_except m h).
Proof.
  intros Hm Hh w r w' H. unfold try_except in H.
  destruct (m w) as [[a | e] w1] eqn:Hmw.
  - inversion H; subst. eapply Hm; eauto.
  - eapply frame_trans; [eapply Hm | eapply Hh]; eauto.
Qed.

Lemma framed_emit (e : event) : framed (emit e).
Proof. intros w r w' H. inversion H. apply (frame_logged w [e]). Qed.

Lemma framed_sleep (ms : Z) : framed (sleep ms).
Proof.
  unfold sleep. destruct (ms <? 0); [apply framed_raise | apply framed_emit].
Qed.

Lemma framed_for_each {A} (xs : list A) (body : A -> M unit) :
  (forall x, framed (body x)) -> framed (for_each xs body).
Proof.
  intros Hb. induction xs as [ | x rest IH]; simpl.
  - apply framed_ret.
  - apply framed_bind; auto.
Qed.

Lemma framed_now (E : env) : framed (now E).
Proof.
  intros w r w' H. inversion H. split; simpl; auto.
  exists []. now rewrite app_nil_r.
Qed.

Lemma framed_save_log (E : env) (action result : string) :
  framed (save_log E action result).
Proof.
  intros w r w' H.
  destruct (save_log_run E action result w) as (w2 & Hrun & HR & HG & HW & Hcase).
  rewrite Hrun in H. inversion H; subst. split; auto; try lia.
  destruct (appendable w); [destruct Hcase as (_ & _ & ->)
                           | destruct Hcase as (_ & msg & ->)]; eauto.
Qed.

Lemma framed_get_recent_logs (E : env) (n : Z) : framed (get_recent_logs E n).
Proof.
  intros w r w' H.
  destruct (get_recent_logs_run E n w) as (s & evs & Hrun & _).
  rewrite Hrun in H. inversion H. apply frame_logged.
Qed.

Lemma framed_grab (r : region) : framed (grab r).
Proof. intros w x w' H. inversion H. split; simpl; eauto. Qed.

Lemma framed_capture_screenshot (E : env) : framed (capture_screenshot E).
Proof.
  unfold capture_screenshot. apply framed_bind; [apply framed_grab | ].
  intros a. apply framed_ret.
Qed.

Lemma framed_log_info (msg : string) : framed (log_info msg).
Proof. apply framed_emit. Qed.

Lemma framed_log_warning (msg : string) : framed (log_warning msg).
Proof. apply framed_emit. Qed.

Lemma framed_log_error (msg : string) : framed (log_error msg).
Proof. apply framed_emit. Qed.

Create HintDb framed.
#[local] Hint Resolve framed_ret framed_raise framed_emit framed_sleep
  framed_log_info framed_log_warning framed_log_error
  framed_now framed_save_log framed_get_recent_logs framed_grab
  framed_capture_screenshot : framed.

Ltac framed_steps :=
  repeat first
    [ solve [auto with framed]
    | progress cbv zeta
    | apply framed_bind; [ | intros ? ]
    | apply framed_for_each; intros ?
    | match goal with
      | |- framed (if ?c then _ else _) => destruct c
      | |- framed (match ?x with _ => _ end) => destruct x
      end ].

Lemma framed_keystroke (c : ascii) : framed (keystroke c).
Proof. unfold keystroke. framed_steps. Qed.

Lemma framed_press_option : framed press_option.
Proof. unfold press_option, wait_for_load. framed_steps. Qed.

#[local] Hint Resolve framed_keystroke framed_press_option : framed.

Lemma framed_type_letters (E : env) (letters : argval) :
  framed (type_letters E letters).
Proof. unfold type_letters. framed_steps. Qed.

Lemma framed_type_text (txt : argval) : framed (type_text txt).
Proof. unfold type_text. framed_steps. Qed.

#[local] Hint Resolve framed_type_letters framed_type_text : framed.

Lemma framed_dispatch (E : env) (p : part) : framed (dispatch E p).
Proof. unfold dispatch. framed_steps. Qed.

#[local] Hint Resolve framed_dispatch : framed.

(** ** The capture adapter *)

(** The region [capture_screenshot] computes from the primary monitor. *)
Definition viewport (E : env) : region :=
  Region (top (monitor E)) (left (monitor E))
         (width (monitor E) / 3)
         (int_of_float (times_0_625 (height (monitor E)))).

(** The world after one more grab, and the effects [evs] around it. *)
Definition grabbed (w : world) (evs : list event) : world :=
  World (log_file w) (log_writable w) (requests w) (S (grabs w)) (ticks w)
        (trace w ++ evs).

Lemma capture_screenshot_run (E : env) (w : world) :
  capture_screenshot E w
  = (Ret (Image (S (grabs w)) (viewport E), viewport E),
     grabbed w [Grab (viewport E)]).
Proof. reflexivity. Qed.

(** Truncating [h * 0.625] is truncating [5 * h / 8]. *)
Lemma int_of_float_times_0_625 (h : Z) :
  int_of_float (times_0_625 h) = Z.quot (5 * h) 8.
Proof.
  unfold int_of_float, times_0_625. simpl.
  replace (h * 625) with ((5 * h) * 125) by lia.
  change 1000 with (8 * 125).
  apply Z.quot_mul_cancel_r; lia.
Qed.

(** ** The action executor *)

(** What typing the characters [cs] does. *)
Definition typed (cs : list ascii) : list event :=
  flat_map (fun c => [Write (PyStr.of_char c); Sleep 100]) cs.

Definition option_tap : list event :=
  [Sleep 3000; KeyDown "option"; Sleep 100; KeyUp "option"].

Lemma keystroke_run (c : ascii) (w : world) :
  keystroke c w = (Ret tt, logged w [Write (PyStr.of_char c); Sleep 100]).
Proof. unfold keystroke, bind, sleep, emit, logged; simpl. now rewrite <- app_assoc. Qed.

Lemma for_each_keystroke (cs : list ascii) (w : world) :
  for_each cs keystroke w = (Ret tt, logged w (typed cs)).
Proof.
  revert w. induction cs as [ | c cs IH]; intros w; simpl.
  - unfold ret. now rewrite logged_nil.
  - unfold bind. rewrite keystroke_run, IH, logged_logged. reflexivity.
Qed.

Lemma press_option_run (w : world) : press_option w = (Ret tt, logged w option_tap).
Proof.
  unfold press_option, wait_for_load, bind, sleep, emit, ret, logged; simpl.
  now rewrite <- !app_assoc.
Qed.

(** A string of exactly two or three alphabetic characters. *)
Definition two_or_three_letters (v : argval) : Prop :=
  exists s, v = AStr s
            /\ (2 <= String.length s <= 3)%nat
            /\ Forall (fun c => PyStr.char_isalpha c = true) (PyStr.chars s).

(** The three checks of [type_letters], as one test. *)
Definition passes_checks (v : argval) : bool :=
  match v with
  | AStr s => (2 <=? PyStr.len s) && (PyStr.len s <=? 3) && PyStr.isalpha s
  | _ => false
  end.

Lemma passes_checks_spec (v : argval) :
  passes_checks v = true <-> two_or_three_letters v.
Proof.
  unfold two_or_three_letters, passes_checks. split.
  - destruct v as [ | | | s]; try discriminate. intros H.
    apply andb_prop in H as [H Ha]. apply andb_prop in H as [H2 H3].
    apply Z.leb_le in H2, H3. unfold PyStr.len in *.
    exists s. split; [reflexivity | split; [lia | ]].
    unfold PyStr.isalpha in Ha. apply andb_prop in Ha as [_ Ha].
    apply Forall_forall. now apply forallb_forall.
  - intros (s & -> & Hlen & Ha). unfold PyStr.len, PyStr.isalpha.
    rewrite !andb_true_iff, !Z.leb_le. repeat split; try lia.
    + destruct s; [simpl in Hlen; lia | reflexivity].
    + apply forallb_forall. now apply Forall_forall.
Qed.

Lemma type_letters_accepts (E : env) (v : argval) (w : world) :
  passes_checks v = true ->
  exists s, v = AStr s /\
    type_letters E v w
    = (Ret (Image (S (grabs w)) (viewport E), viewport E),
       grabbed w (typed (PyStr.chars (PyStr.lower s)) ++ option_tap
                  ++ [Grab (viewport E)])).
Proof.
  destruct v as [ | | | s]; try discriminate. simpl. intros H.
  apply andb_prop in H as [H Ha]. exists s. split; [reflexivity | ].
  unfold type_letters. rewrite H, Ha. simpl.
  unfold bind. rewrite for_each_keystroke, press_option_run, capture_screenshot_run.
  unfold grabbed, logged; simpl. now rewrite <- !app_assoc.
Qed.

Lemma type_letters_rejects (E : env) (v : argval) (w : world) :
  passes_checks v = false ->
  exists msg, type_letters E v w = (Raise (Exn "ValueError" msg), w).
Proof.
  destruct v as [ | | | s]; simpl; intros H; try (eexists; reflexivity).
  unfold type_letters.
  destruct ((2 <=? PyStr.len s) && (PyStr.len s <=? 3)); simpl in *.
  - rewrite H. simpl. eexists; reflexivity.
  - eexists; reflexivity.
Qed.

(** ** The model client *)

(** The durations of the sleeps among some effects, in order. *)
Fixpoint sleeps (evs : list event) : list Z :=
  match evs with
  | [] => []
  | Sleep ms :: rest => ms :: sleeps rest
  | _ :: rest => sleeps rest
  end.

(** Effects that reach the keyboard or the mouse. *)
Definition is_input (e : event) : bool :=
  match e with
  | Write _ | KeyDown _ | KeyUp _ | Hotkey _ | Press _ | Click _ _ => true
  | _ => false
  end.

Definition is_warning (e : event) : bool :=
  match e with
  | LogWarning _ => true
  | _ => false
  end.

Lemma sleeps_app (xs ys : list event) : sleeps (xs ++ ys) = (sleeps xs ++ sleeps ys)%list.
Proof.
  induction xs as [ | x xs IH]; simpl; [reflexivity | ].
  destruct x; simpl; now rewrite ?IH.
Qed.

(** The world [save_log] leaves. *)
Definition saved (E : env) (action result : string) (w : world) : world :=
  snd (save_log E action result w).

Lemma save_log_saved (E : env) (action result : string) (w : world) :
  save_log E action result w = (Ret tt, saved E action result w).
Proof.
  unfold saved.
  destruct (save_log_run E action result w) as (w' & -> & _). reflexivity.
Qed.

(** [save_log] adds one line to the trace: a [logging.info] or a
    [logging.error] one. *)
Lemma saved_trace (E : env) (action result : string) (w : world) :
  exists line,
    trace (saved E action result w) = (trace w ++ [line])%list
    /\ sleeps [line] = [] /\ is_input line = false /\ is_warning line = false.
Proof.
  unfold saved.
  destruct (save_log_run E action result w) as (w' & -> & _ & _ & _ & H). simpl.
  destruct (appendable w).
  - destruct H as (_ & _ & ->). eexists; repeat split.
  - destruct H as (_ & msg & ->). eexists; repeat split.
Qed.

Lemma saved_frame (E : env) (action result : string) (w : world) :
  frame w (saved E action result w).
Proof. eapply framed_save_log. apply save_log_saved. Qed.

Lemma saved_grabs (E : env) (action result : string) (w : world) :
  grabs (saved E action result w) = grabs w.
Proof.
  unfold saved.
  destruct (save_log_run E action result w) as (w' & Hrun & _ & HG & _).
  now rewrite Hrun.
Qed.

Definition error_msg (e : string) : string := "error analyzing screenshot: " ++ e.

Definition retry_msg (retry_delay : Z) : string :=
  "hit rate limit, waiting " ++ PyStr.of_int retry_delay ++ " seconds before retry".

(** The [except] block of [twitter_helper]; [again] is the call it may
    end in. *)
Definition rescue (E : env) (max_retries retry_delay : Z) (again : M bool)
    (e : exn) : M bool :=
  log_error (error_msg (exn_msg e)) ;;
  save_log E "error" (error_msg (exn_msg e)) ;;
  if PyStr.contains "429" (exn_msg e) && (max_retries >? 0) then
    log_warning (retry_msg retry_delay) ;;
    save_log E "warning" (retry_msg retry_delay) ;;
    sleep (1000 * retry_delay) ;;
    again
  else ret false.

Lemma twitter_helper_from_rescue (E : env) (fuel : nat) (img : image)
    (max_retries retry_delay : Z) :
  twitter_helper_from E fuel img max_retries retry_delay
  = try_except (analyze E img)
      (rescue E max_retries retry_delay
         match fuel with
         | S fuel' => twitter_helper_from E fuel' img (max_retries - 1) retry_delay
         | O => ret false
         end).
Proof. destruct fuel; reflexivity. Qed.

(** The world after the error was logged, before the decision to retry. *)
Definition noted (E : env) (e : string) (w : world) : world :=
  saved E "error" (error_msg e) (logged w [LogError (error_msg e)]).

(** The world after the back-off, when a retry starts. *)
Definition backed_off (E : env) (retry_delay : Z) (e : string) (w : world) : world :=
  logged (saved E "warning" (retry_msg retry_delay)
                (logged (noted E e w) [LogWarning (retry_msg retry_delay)]))
         [Sleep (1000 * retry_delay)].

Lemma rescue_gives_up (E : env) (max_retries retry_delay : Z) (again : M bool)
    (e : exn) (w : world) :
  PyStr.contains "429" (exn_msg e) && (max_retries >? 0) = false ->
  rescue E max_retries retry_delay again e w = (Ret false, noted E (exn_msg e) w).
Proof.
  intros H. unfold rescue, bind, log_error. rewrite emit_run, save_log_saved, H.
  reflexivity.
Qed.

Lemma rescue_retries (E : env) (max_retries retry_delay : Z) (again : M bool)
    (e : exn) (w : world) :
  PyStr.contains "429" (exn_msg e) && (max_retries >? 0) = true ->
  0 <= retry_delay ->
  rescue E max_retries retry_delay again e w
  = again (backed_off E retry_delay (exn_msg e) w).
Proof.
  intros H Hd. unfold rescue, bind, log_error, log_warning.
  rewrite emit_run, save_log_saved, H, emit_run, save_log_saved.
  unfold sleep. destruct (1000 * retry_delay <? 0) eqn:Hneg; [lia | ].
  now rewrite emit_run.
Qed.

(** The recursion of [twitter_helper], without the fuel. *)
Lemma twitter_helper_unfold (E : env) (img : image) (max_retries retry_delay : Z)
    (w : world) :
  twitter_helper E img max_retries retry_delay w
  = try_except (analyze E img)
      (rescue E max_retries retry_delay
         (twitter_helper E img (max_retries - 1) retry_delay)) w.
Proof.
  unfold twitter_helper. rewrite twitter_helper_from_rescue.
  destruct (Z.to_nat max_retries) as [ | fuel] eqn:Hfuel.
  - unfold try_except. destruct (analyze E img w) as [[b | e] w1]; [reflexivity | ].
    assert (Hno : PyStr.contains "429" (exn_msg e) && (max_retries >? 0) = false).
    { apply andb_false_iff. right. rewrite Z.gtb_ltb. apply Z.ltb_ge. lia. }
    now rewrite !rescue_gives_up.
  - replace (Z.to_nat (max_retries - 1)) with fuel by lia. reflexivity.
Qed.

(** Where [twitter_helper] keeps the image it uploads. *)
Definition temp_path (E : env) (w : world) : string :=
  "temp_screenshot_" ++ strftime_stamp (clock E (ticks w)) ++ ".jpg".

(** The world after one more trip to the endpoint. *)
Definition attempted (w : world) (evs : list event) : world :=
  World (log_file w) (log_writable w) (S (requests w)) (grabs w) (S (ticks w))
        (trace w ++ evs).

(** The [try] block from [genai.upload_file] on, for the reply [r]. *)
Definition after_reply (E : env) (r : reply) (path : string) : M bool :=
  upload_file path r ;;
  recent_logs <- get_recent_logs E 10 ;;
  parts <- send_message (build_context E recent_logs) path r ;;
  for_each parts (dispatch E) ;;
  os_remove path r ;;
  ret true.

Lemma analyze_split (E : env) (img : image) (w : world) :
  analyze E img w
  = after_reply E (model_reply E (requests w)) (temp_path E w)
      (attempted w [SaveImage (temp_path E w) img]).
Proof. reflexivity. Qed.

Lemma framed_after_reply (E : env) (r : reply) (path : string) :
  framed (after_reply E r path).
Proof.
  unfold after_reply, upload_file, send_message, os_remove. framed_steps.
Qed.

(** Every run of the [try] block is one trip to the endpoint. *)
Lemma analyze_requests (E : env) (img : image) (w w1 : world) (r : result bool) :
  analyze E img w = (r, w1) ->
  requests w1 = S (requests w) /\ (grabs w <= grabs w1)%nat
  /\ log_writable w1 = log_writable w.
Proof.
  rewrite analyze_split. intros H. apply framed_after_reply in H.
  destruct H as [HR HW HG _]. simpl in *. auto.
Qed.


(** The message of a reply that is an error of the request itself. *)
Definition request_error (r : reply) : option string :=
  match r with
  | UploadFails e | SendFails e => Some e
  | Response _ _ => None
  end.

Lemma attempted_logged (w : world) (xs ys : list event) :
  logged (attempted w xs) ys = attempted w (xs ++ ys).
Proof. unfold logged, attempted; simpl. now rewrite <- app_assoc. Qed.

Lemma analyze_request_error (E : env) (img : image) (w : world) (e : string) :
  request_error (model_reply E (requests w)) = Some e ->
  exists evs,
    analyze E img w = (Raise (Exn "Exception" e), attempted w evs)
    /\ sleeps evs = [] /\ existsb is_input evs = false
    /\ existsb is_warning evs = false.
Proof.
  rewrite analyze_split. unfold after_reply.
  destruct (model_reply E (requests w)) as [e' | e' | parts cleanup];
    simpl; intros H; inversion H; subst.
  - eexists. split; [reflexivity | auto].
  - unfold bind at 1. rewrite emit_run, attempted_logged.
    unfold bind at 1.
    destruct (get_recent_logs_run E 10
                (attempted w ([SaveImage (temp_path E w) img]
                              ++ [Upload (temp_path E w)])))
      as (s & evs & -> & Hevs).
    rewrite attempted_logged. eexists. split; [reflexivity | ].
    destruct Hevs as [-> | (_ & msg & ->)]; auto.
Qed.

(** After a reply with parts, the parts are dispatched one by one and the
    temporary file is removed. *)
Lemma analyze_response (E : env) (img : image) (w : world)
    (parts : list part) (cleanup : option string) :
  model_reply E (requests w) = Response parts cleanup ->
  exists evs,
    analyze E img w
    = (for_each parts (dispatch E) ;;
       os_remove (temp_path E w) (Response parts cleanup) ;;
       ret true) (attempted w evs)
    /\ sleeps evs = [] /\ existsb is_input evs = false
    /\ existsb is_warning evs = false.
Proof.
  intros Hr. rewrite analyze_split, Hr. unfold after_reply.
  unfold bind at 1. simpl upload_file. rewrite emit_run, attempted_logged.
  unfold bind at 1.
  destruct (get_recent_logs_run E 10
              (attempted w ([SaveImage (temp_path E w) img]
                            ++ [Upload (temp_path E w)])))
    as (s & evs & -> & Hevs).
  rewrite attempted_logged.
  unfold bind at 1, send_message. unfold bind at 1.
  rewrite emit_run, attempted_logged. unfold ret at 1.
  eexists. split; [reflexivity | ].
  destruct Hevs as [-> | (_ & msg & ->)]; auto.
Qed.

Lemma saved_requests (E : env) (action result : string) (w : world) :
  requests (saved E action result w) = requests w.
Proof. apply (frame_requests _ _ (saved_frame E action result w)). Qed.

Lemma saved_writable (E : env) (action result : string) (w : world) :
  log_writable (saved E action result w) = log_writable w.
Proof. apply (frame_writable _ _ (saved_frame E action result w)). Qed.

Lemma saved_log_file (E : env) (action result : string) (w : world) :
  log_file (saved E action result w)
  = match appendable w with
    | Some items =>
        Some (Document
                (JArr (items ++ [entry (isoformat (clock E (ticks w)))
                                       action result])))
    | None => log_file w
    end.
Proof.
  unfold saved.
  destruct (save_log_run E action result w) as (w' & -> & _ & _ & _ & H). simpl.
  destruct (appendable w); tauto.
Qed.

Lemma appendable_saved (E : env) (action result : string) (w : world)
    (items : list json) :
  appendable w = Some items ->
  exists t, appendable (saved E action result w)
            = Some (items ++ [entry t action result])%list.
Proof.
  intros H. unfold appendable at 1.
  rewrite saved_log_file, saved_writable, H.
  unfold appendable in H.
  destruct (log_file w) as [[ | | []] | ]; try discriminate.
  destruct (log_writable w); try discriminate. eauto.
Qed.

Lemma appendable_logged (w : world) (evs : list event) :
  appendable (logged w evs) = appendable w.
Proof. reflexivity. Qed.

Lemma appendable_attempted (w : world) (evs : list event) :
  appendable (attempted w evs) = appendable w.
Proof. reflexivity. Qed.

(** What the first half of the [except] block leaves: the error is on
    the trace and, when the log can take it, in the log. *)
Lemma noted_facts (E : env) (e : string) (w : world) :
  requests (noted E e w) = requests w
  /\ grabs (noted E e w) = grabs w
  /\ log_writable (noted E e w) = log_writable w
  /\ (exists line,
        trace (noted E e w) = (trace w ++ [LogError (error_msg e); line])%list
        /\ sleeps [line] = [] /\ is_input line = false
        /\ is_warning line = false)
  /\ match appendable w with
     | Some items =>
         exists t, appendable (noted E e w)
                   = Some (items ++ [entry t "error" (error_msg e)])%list
     | None => log_file (noted E e w) = log_file w
     end.
Proof.
  unfold noted. rewrite saved_requests, saved_grabs, saved_writable.
  repeat split.
  - destruct (saved_trace E "error" (error_msg e) (logged w [LogError (error_msg e)]))
      as (line & -> & H). exists line. simpl. now rewrite <- app_assoc.
  - destruct (appendable w) as [items | ] eqn:Ha.
    + apply appendable_saved. now rewrite appendable_logged.
    + now rewrite saved_log_file, appendable_logged, Ha.
Qed.

(** What the whole [except] block leaves when it retries. *)
Lemma backed_off_facts (E : env) (retry_delay : Z) (e : string) (w : world) :
  requests (backed_off E retry_delay e w) = requests w
  /\ grabs (backed_off E retry_delay e w) = grabs w
  /\ log_writable (backed_off E retry_delay e w) = log_writable w
  /\ (exists line1 line2,
        trace (backed_off E retry_delay e w)
        = (trace w ++ [LogError (error_msg e); line1;
                       LogWarning (retry_msg retry_delay); line2;
                       Sleep (1000 * retry_delay)])%list
        /\ sleeps [line1; line2] = []
        /\ existsb is_input [line1; line2] = false)
  /\ match appendable w with
     | Some items =>
         exists t1 t2,
           log_file (backed_off E retry_delay e w)
           = Some (Document
                     (JArr (items ++ [entry t1 "error" (error_msg e);
                                      entry t2 "warning" (retry_msg retry_delay)])))
     | None => log_file (backed_off E retry_delay e w) = log_file w
     end.
Proof.
  destruct (noted_facts E e w) as (HR & HG & HW & (l1 & HT & Hs1 & Hi1 & _) & HL).
  unfold backed_off. simpl.
  rewrite saved_requests, saved_grabs, saved_writable. simpl.
  repeat split; auto.
  - destruct (saved_trace E "warning" (retry_msg retry_delay)
                (logged (noted E e w) [LogWarning (retry_msg retry_delay)]))
      as (l2 & -> & Hs2 & Hi2 & _).
    exists l1, l2. simpl. rewrite HT, <- !app_assoc. simpl. repeat split.
    + destruct l1, l2; simpl in *; congruence.
    + now rewrite Hi1, Hi2.
  - rewrite saved_log_file, appendable_logged.
    destruct (appendable w) as [items | ] eqn:Ha.
    + destruct HL as (t1 & ->). do 2 eexists.
      rewrite <- app_assoc. reflexivity.
    + unfold appendable in *. simpl. rewrite HL, HW.
      destruct (log_file w) as [[ | | []] | ]; auto.
      destruct (log_writable w); [discriminate | reflexivity].
Qed.

(** [twitter_helper] always returns a boolean when the back-off is a
    length of time: nothing it raises gets past its [except] block. *)
Lemma twitter_helper_returns (E : env) (img : image) (retry_delay : Z) :
  0 <= retry_delay ->
  forall (n : nat) (max_retries : Z) (w : world),
    Z.to_nat max_retries = n ->
    exists b w',
      twitter_helper E img max_retries retry_delay w = (Ret b, w')
      /\ (grabs w <= grabs w')%nat.
Proof.
  intros Hd. induction n as [ | n IH]; intros m w Hm;
    rewrite twitter_helper_unfold; unfold try_except;
    destruct (analyze E img w) as [[b | e] w1] eqn:Ha;
    pose proof (analyze_requests _ _ _ _ _ Ha) as (_ & HG & _).
  - eauto.
  - rewrite rescue_gives_up.
    + destruct (noted_facts E (exn_msg e) w1) as (_ & HG' & _).
      do 2 eexists. split; [reflexivity | lia].
    + apply andb_false_iff. right. rewrite Z.gtb_ltb. apply Z.ltb_ge. lia.
  - eauto.
  - destruct (PyStr.contains "429" (exn_msg e) && (m >? 0)) eqn:Hc.
    + rewrite rescue_retries by assumption.
      destruct (IH (m - 1) (backed_off E retry_delay (exn_msg e) w1))
        as (b & w' & -> & HG'); [lia | ].
      destruct (backed_off_facts E retry_delay (exn_msg e) w1) as (_ & HG2 & _).
      do 2 eexists. split; [reflexivity | lia].
    + rewrite rescue_gives_up by assumption.
      destruct (noted_facts E (exn_msg e) w1) as (_ & HG' & _).
      do 2 eexists. split; [reflexivity | lia].
Qed.

(** ** Rate limiting *)

(** A reply that is a request error carrying the rate-limit marker. *)
Definition rate_limited (r : reply) : bool :=
  match request_error r with
  | Some e => PyStr.contains "429" e
  | None => false
  end.

(** The message of a rate-limited reply (empty for any other reply). *)
Definition reply_message (r : reply) : string :=
  match request_error r with
  | Some e => e
  | None => ""
  end.

Lemma rate_limited_error (r : reply) :
  rate_limited r = true ->
  request_error r = Some (reply_message r)
  /\ PyStr.contains "429" (reply_message r) = true.
Proof.
  unfold rate_limited, reply_message. destruct (request_error r); [auto | discriminate].
Qed.

Lemma sleeps_backed_off (m1 m2 : string) (l1 l2 : event) (ms : Z) :
  sleeps [l1; l2] = [] ->
  sleeps [LogError m1; l1; LogWarning m2; l2; Sleep ms] = [ms].
Proof. destruct l1, l2; simpl; congruence. Qed.

Lemma existsb_app_false {A} (f : A -> bool) (xs ys : list A) :
  existsb f xs = false -> existsb f ys = false -> existsb f (xs ++ ys) = false.
Proof. intros H1 H2. now rewrite existsb_app, H1, H2. Qed.

(** One rate-limited attempt with budget left: the call continues as the
    call with one retry less, on the same image, from the world the
    back-off leaves. *)
Lemma rate_limited_step (E : env) (img : image) (max_retries retry_delay : Z)
    (w : world) :
  0 < max_retries -> 0 <= retry_delay ->
  rate_limited (model_reply E (requests w)) = true ->
  exists w2 evs,
    twitter_helper E img max_retries retry_delay w
    = twitter_helper E img (max_retries - 1) retry_delay w2
    /\ requests w2 = S (requests w)
    /\ grabs w2 = grabs w
    /\ trace w2 = (trace w ++ evs)%list
    /\ sleeps evs = [1000 * retry_delay]
    /\ existsb is_input evs = false
    /\ In (LogError (error_msg (reply_message (model_reply E (requests w))))) evs
    /\ match appendable w with
       | Some items =>
           exists t1 t2,
             log_file w2
             = Some (Document
                       (JArr (items
                              ++ [entry t1 "error"
                                    (error_msg
                                       (reply_message (model_reply E (requests w))));
                                  entry t2 "warning" (retry_msg retry_delay)])))
       | None => log_file w2 = log_file w
       end.
Proof.
  intros Hm Hd Hr. apply rate_limited_error in Hr as [He H429].
  set (e := reply_message (model_reply E (requests w))) in *.
  destruct (analyze_request_error E img w e He) as (pre & Ha & Hs & Hi & _).
  rewrite twitter_helper_unfold. unfold try_except. rewrite Ha.
  rewrite rescue_retries; simpl exn_msg; auto.
  2: { rewrite H429. simpl. apply Z.gtb_lt. lia. }
  destruct (backed_off_facts E retry_delay e (attempted w pre))
    as (HR & HG & _ & (l1 & l2 & HT & Hs12 & Hi12) & HL).
  exists (backed_off E retry_delay e (attempted w pre)).
  exists (pre ++ [LogError (error_msg e); l1; LogWarning (retry_msg retry_delay);
                  l2; Sleep (1000 * retry_delay)])%list.
  repeat split; auto.
  - rewrite HT. simpl. now rewrite <- app_assoc.
  - rewrite sleeps_app, Hs. cbn [app].
    apply sleeps_backed_off; auto.
  - apply existsb_app_false; auto.
  - apply in_or_app. right. now left.
Qed.

(** A rate-limited attempt with no budget left ends the call. *)
Lemma rate_limited_last (E : env) (img : image) (max_retries retry_delay : Z)
    (w : world) :
  max_retries <= 0 ->
  rate_limited (model_reply E (requests w)) = true ->
  exists w' evs,
    twitter_helper E img max_retries retry_delay w = (Ret false, w')
    /\ requests w' = S (requests w)
    /\ grabs w' = grabs w
    /\ trace w' = (trace w ++ evs)%list
    /\ sleeps evs = []
    /\ existsb is_input evs = false.
Proof.
  intros Hm Hr. apply rate_limited_error in Hr as [He H429].
  set (e := reply_message (model_reply E (requests w))) in *.
  destruct (analyze_request_error E img w e He) as (pre & Ha & Hs & Hi & _).
  rewrite twitter_helper_unfold. unfold try_except. rewrite Ha.
  rewrite rescue_gives_up.
  2: { apply andb_false_iff. right. rewrite Z.gtb_ltb. apply Z.ltb_ge. lia. }
  simpl exn_msg.
  destruct (noted_facts E e (attempted w pre))
    as (HR & HG & _ & (l1 & HT & Hs1 & Hi1 & _) & _).
  exists (noted E e (attempted w pre)), (pre ++ [LogError (error_msg e); l1])%list.
  repeat split; auto.
  - rewrite HT. simpl. now rewrite <- app_assoc.
  - rewrite sleeps_app, Hs. simpl. destruct l1; simpl in *; congruence.
  - apply existsb_app_false; auto. simpl. now rewrite Hi1.
Qed.

(** Rate-limited replies all the way: the budget is used up, one back-off
    per retry, and the call gives up. *)
Lemma retries_exhaust (E : env) (img : image) (retry_delay : Z) :
  0 <= retry_delay ->
  forall (n : nat) (w : world),
    (forall k, (requests w <= k <= requests w + n)%nat ->
               rate_limited (model_reply E k) = true) ->
    exists w' evs,
      twitter_helper E img (Z.of_nat n) retry_delay w = (Ret false, w')
      /\ requests w' = (requests w + n + 1)%nat
      /\ grabs w' = grabs w
      /\ trace w' = (trace w ++ evs)%list
      /\ sleeps evs = repeat (1000 * retry_delay) n
      /\ existsb is_input evs = false.
Proof.
  intros Hd. induction n as [ | n IH]; intros w Hall.
  - destruct (rate_limited_last E img 0 retry_delay w)
      as (w' & evs & Hrun & HR & HG & HT & Hs & Hi); [lia | apply Hall; lia | ].
    exists w', evs. repeat split; auto. lia.
  - destruct (rate_limited_step E img (Z.of_nat (S n)) retry_delay w)
      as (w2 & evs & Hrun & HR & HG & HT & Hs & Hi & _); [lia | lia | apply Hall; lia | ].
    replace (Z.of_nat (S n) - 1) with (Z.of_nat n) in Hrun by lia.
    destruct (IH w2) as (w' & evs' & Hrun' & HR' & HG' & HT' & Hs' & Hi').
    { intros k Hk. apply Hall. lia. }
    exists w', (evs ++ evs')%list. rewrite Hrun, Hrun'. repeat split.
    + lia.
    + congruence.
    + now rewrite HT', HT, app_assoc.
    + now rewrite sleeps_app, Hs, Hs'.
    + now apply existsb_app_false.
Qed.

(** Any failure of the [try] block without the marker, or with no budget
    left: one attempt, the error is logged, and the call returns [False]. *)
Lemma failure_without_retry (E : env) (img : image) (max_retries retry_delay : Z)
    (w w1 : world) (ex : exn) :
  analyze E img w = (Raise ex, w1) ->
  PyStr.contains "429" (exn_msg ex) && (max_retries >? 0) = false ->
  twitter_helper E img max_retries retry_delay w
  = (Ret false, noted E (exn_msg ex) w1)
  /\ requests (noted E (exn_msg ex) w1) = S (requests w)
  /\ exists line,
       trace (noted E (exn_msg ex) w1)
       = (trace w1 ++ [LogError (error_msg (exn_msg ex)); line])%list
       /\ sleeps [line] = [] /\ is_input line = false.
Proof.
  intros Ha Hc. rewrite twitter_helper_unfold. unfold try_except. rewrite Ha.
  rewrite rescue_gives_up by assumption.
  destruct (noted_facts E (exn_msg ex) w1) as (HR & _ & _ & (l & HT & Hs & Hi & _) & _).
  apply analyze_requests in Ha as (HR1 & _).
  repeat split; [congruence | ]. exists l. auto.
Qed.

(** ** Dispatching the parts of a response *)

(** The [logging.info] line for the text of a part, when it has text. *)
Definition heard (p : part) : list event :=
  if String.eqb (text p) "" then []
  else [LogInfo ("received text: " ++ text p)].

Lemma heard_quiet (p : part) :
  sleeps (heard p) = [] /\ existsb is_input (heard p) = false
  /\ existsb is_warning (heard p) = false.
Proof. unfold heard. destruct (String.eqb (text p) ""); auto. Qed.

(** A part with no function call: only its text is logged. *)
Lemma dispatch_text_only (E : env) (p : part) (w : world) :
  fn_call p = None ->
  dispatch E p w = (Ret tt, logged w (heard p)).
Proof.
  intros Hfn. unfold dispatch, heard, bind, log_info. rewrite Hfn.
  destruct (String.eqb (text p) ""); simpl.
  - unfold ret. now rewrite logged_nil.
  - reflexivity.
Qed.

(** A call of a function the program does not know: one warning. *)
Lemma dispatch_unknown (E : env) (p : part) (fn : function_call) (w : world) :
  fn_call p = Some fn ->
  name fn <> "type_letters" -> name fn <> "type_text" ->
  dispatch E p w
  = (Ret tt,
     logged w (heard p ++ [LogWarning ("unknown function call: " ++ name fn)])).
Proof.
  intros Hfn H1 H2. apply String.eqb_neq in H1, H2.
  unfold dispatch, heard, bind, log_info, log_warning. rewrite Hfn, H1, H2.
  destruct (String.eqb (text p) ""); unfold emit, logged; simpl;
    now rewrite <- ?app_assoc.
Qed.

(** The argument a known function needs. *)
Definition required_key (fn : function_call) : option string :=
  if String.eqb (name fn) "type_letters" then Some "letters"
  else if String.eqb (name fn) "type_text" then Some "text"
  else None.

(** A call of [type_letters] or [type_text] whose required argument is
    not there or is the empty string. *)
Definition lacks_argument (fn : function_call) : bool :=
  match required_key fn with
  | Some key =>
      match args_get (args fn) key with
      | ANone => true
      | AStr s => String.eqb s ""
      | _ => false
      end
  | None => false
  end.

Lemma dispatch_lacking (E : env) (p : part) (fn : function_call) (w : world) :
  fn_call p = Some fn ->
  lacks_argument fn = true ->
  dispatch E p w = (Ret tt, logged w (heard p)).
Proof.
  intros Hfn H. unfold lacks_argument, required_key in H.
  unfold dispatch, heard, bind, log_info. rewrite Hfn.
  destruct (String.eqb (name fn) "type_letters").
  - destruct (args_get (args fn) "letters") as [ | | | s]; try discriminate;
      simpl; rewrite ?H; simpl;
      destruct (String.eqb (text p) ""); simpl; unfold ret;
      rewrite ?logged_nil; reflexivity.
  - destruct (String.eqb (name fn) "type_text"); [ | discriminate].
    destruct (args_get (args fn) "text") as [ | | | s]; try discriminate;
      simpl; rewrite ?H; simpl;
      destruct (String.eqb (text p) ""); simpl; unfold ret;
      rewrite ?logged_nil; reflexivity.
Qed.

(** A response of one part that only logs [evs]: the call succeeds after
    one trip, and nothing but logging, the upload and the clean-up
    happens. *)
Lemma twitter_helper_one_part (E : env) (img : image) (max_retries retry_delay : Z)
    (w : world) (p : part) (evs : list event) :
  model_reply E (requests w) = Response [p] None ->
  (forall w0, dispatch E p w0 = (Ret tt, logged w0 evs)) ->
  exists pre,
    twitter_helper E img max_retries retry_delay w
    = (Ret true, attempted w (pre ++ evs ++ [Remove (temp_path E w)]))
    /\ sleeps pre = [] /\ existsb is_input pre = false
    /\ existsb is_warning pre = false.
Proof.
  intros Hr Hp.
  destruct (analyze_response E img w [p] None Hr) as (pre & Ha & Hq).
  exists pre. split; [ | exact Hq].
  rewrite twitter_helper_unfold. unfold try_except. rewrite Ha.
  simpl for_each. unfold bind. rewrite Hp. unfold ret at 1.
  simpl os_remove. rewrite emit_run.
  rewrite !attempted_logged, <- app_assoc. reflexivity.
Qed.

(** ** The engagement loop *)

Lemma bind_assoc {A B C} (m : M A) (f : A -> M B) (g : B -> M C) (w : world) :
  bind (bind m f) g w = bind m (fun a => bind (f a) g) w.
Proof. unfold bind. destruct (m w) as [[a | e] w1]; reflexivity. Qed.

Lemma bind_ext {A B} (m : M A) (f g : A -> M B) (w : world) :
  (forall a w1, f a w1 = g a w1) -> bind m f w = bind m g w.
Proof. intros H. unfold bind. destruct (m w) as [[a | e] w1]; auto. Qed.

(** [n + 1] turns are [n] turns and one more. *)
Lemma turns_snoc (E : env) (n : nat) (screenshot : image) (w : world) :
  turns E (S n) screenshot w = bind (turns E n screenshot) (turn E) w.
Proof.
  revert screenshot w. induction n as [ | n IH]; intros screenshot w.
  - simpl. unfold bind, ret.
    destruct (turn E screenshot w) as [[s | e] w1]; reflexivity.
  - change (turns E (S (S n)) screenshot w)
      with (bind (turn E screenshot) (turns E (S n)) w).
    rewrite (bind_ext _ _ (fun s => bind (turns E n s) (turn E)) _ IH).
    now rewrite <- bind_assoc.
Qed.

Lemma upto_S (E : env) (n : nat) (w : world) :
  upto E (S n) w = bind (upto E n) (turn E) w.
Proof.
  unfold upto. rewrite bind_assoc. apply bind_ext. intros s w1. apply turns_snoc.
Qed.

Lemma bind_emit {B} (e : event) (k : unit -> M B) (w : world) :
  bind (emit e) k w = k tt (logged w [e]).
Proof. reflexivity. Qed.

Lemma bind_sleep {B} (ms : Z) (k : unit -> M B) (w : world) :
  0 <= ms -> bind (sleep ms) k w = k tt (logged w [Sleep ms]).
Proof.
  intros H. unfold bind, sleep.
  destruct (ms <? 0) eqn:Hneg; [lia | reflexivity].
Qed.

Lemma save_screenshot_run (E : env) (img : image) (w : world) :
  exists path w',
    save_screenshot E img w = (Ret path, w') /\ grabs w' = grabs w.
Proof.
  do 2 eexists. split.
  - unfold save_screenshot, bind at 1, now.
    rewrite !bind_emit. unfold ret. reflexivity.
  - reflexivity.
Qed.

Lemma navigate_chrome_run (w : world) :
  navigate_chrome w
  = (Ret tt,
     logged w ([Sleep 500; Hotkey ["command"; "t"]; Sleep 500; Write "x.com";
                Press "enter"] ++ option_tap)).
Proof.
  unfold navigate_chrome.
  rewrite bind_sleep, bind_emit, bind_sleep, !bind_emit by lia.
  rewrite press_option_run, !logged_logged. reflexivity.
Qed.

(** Bootstrap ends with a capture, and that capture is what the loop
    starts with. *)
Lemma bootstrap_run (E : env) (w : world) :
  exists img w', bootstrap E w = (Ret img, w') /\ shot img = grabs w'.
Proof.
  unfold bootstrap, log_info, click_region_center.
  rewrite !bind_emit.
  unfold bind at 1. rewrite capture_screenshot_run.
  rewrite !bind_emit.
  unfold bind at 1. rewrite navigate_chrome_run.
  unfold bind at 1. rewrite capture_screenshot_run.
  unfold bind at 1.
  match goal with
  | |- context [save_screenshot E ?i ?x] =>
      destruct (save_screenshot_run E i x) as (path & w1 & -> & HG)
  end.
  rewrite bind_emit. unfold ret.
  do 2 eexists. split; [reflexivity | ].
  simpl. rewrite HG. reflexivity.
Qed.

(** One turn: after a successful call the next turn gets a fresh capture;
    after a failed one it gets the same image, and no capture is made. *)
Lemma turn_run (E : env) (img : image) (w : world) :
  exists ok w1 img' w',
    twitter_helper E img 3 60 w = (Ret ok, w1)
    /\ turn E img w = (Ret img', w')
    /\ (grabs w <= grabs w1)%nat
    /\ if ok then shot img' = grabs w'
       else img' = img /\ grabs w' = grabs w1.
Proof.
  destruct (twitter_helper_returns E img 60 ltac:(lia) _ 3 w eq_refl)
    as (ok & w1 & Hrun & HG).
  exists ok, w1. unfold turn. unfold bind at 1. rewrite Hrun.
  destruct ok; cbn [negb].
  - unfold log_info. rewrite bind_emit.
    unfold bind at 1. rewrite capture_screenshot_run.
    unfold bind at 1.
    match goal with
    | |- context [save_screenshot E ?i ?x] =>
        destruct (save_screenshot_run E i x) as (path & w2 & -> & HG2)
    end.
    unfold ret. do 2 eexists. repeat split; [assumption | ].
    simpl. rewrite HG2. reflexivity.
  - unfold log_error. rewrite bind_emit, bind_sleep by lia. unfold ret.
    do 2 eexists. repeat split; assumption.
Qed.

(** The loop never hands over a capture that has not been made yet. *)
Lemma upto_run (E : env) (n : nat) (w : world) :
  exists img w', upto E n w = (Ret img, w') /\ (shot img <= grabs w')%nat.
Proof.
  induction n as [ | n (img & wn & Hn & Hle)].
  - destruct (bootstrap_run E w) as (img & w' & Hb & Hs).
    exists img, w'. unfold upto, bind. rewrite Hb. simpl. split; [reflexivity | lia].
  - destruct (turn_run E img wn) as (ok & w1 & img' & w' & _ & Ht & HG & Hok).
    exists img', w'. rewrite upto_S. unfold bind. rewrite Hn. split; [exact Ht | ].
    destruct ok; [lia | ]. destruct Hok as [-> ->]. lia.
Qed.

Lemma main_upto (E : env) (n : nat) (w : world) : main E n w = upto E n w.
Proof.
  destruct (upto_run E n w) as (img & w' & H & _).
  rewrite H. unfold main. apply try_ret. exact H.
Qed.

(** ** Nothing reads the trace

    Two worlds that differ only in their traces are told apart by no
    computation of the program: it gives the same result in both and adds
    the same effects to both. *)

Definition same_but_trace (w w' : world) : Prop :=
  log_file w = log_file w' /\ log_writable w = log_writable w'
  /\ requests w = requests w' /\ grabs w = grabs w' /\ ticks w = ticks w'.

Definition blind {A} (m : M A) : Prop :=
  forall w w', same_but_trace w w' ->
    exists r w1 w1' evs,
      m w = (r, w1) /\ m w' = (r, w1')
      /\ same_but_trace w1 w1'
      /\ trace w1 = (trace w ++ evs)%list
      /\ trace w1' = (trace w' ++ evs)%list.

Lemma blind_ret {A} (a : A) : blind (ret a).
Proof.
  intros w w' H. exists (Ret a), w, w', [].
  rewrite !app_nil_r. repeat split; solve [reflexivity | apply H].
Qed.

Lemma blind_raise {A} (e : exn) : blind (@raise A e).
Proof.
  intros w w' H. exists (Raise e), w, w', [].
  rewrite !app_nil_r. repeat split; solve [reflexivity | apply H].
Qed.

Lemma blind_bind {A B} (m : M A) (k : A -> M B) :
  blind m -> (forall a, blind (k a)) -> blind (bind m k).
Proof.
  intros Hm Hk w w' H.
  destruct (Hm w w' H) as (r & w1 & w1' & evs & Hw & Hw' & H1 & HT & HT').
  unfold bind. rewrite Hw, Hw'. destruct r as [a | e].
  - destruct (Hk a w1 w1' H1) as (r2 & w2 & w2' & evs2 & -> & -> & H2 & HT2 & HT2').
    exists r2, w2, w2', (evs ++ evs2)%list. repeat split; try apply H2.
    + now rewrite HT2, HT, app_assoc.
    + now rewrite HT2', HT', app_assoc.
  - exists (Raise e), w1, w1', evs.
    repeat split; solve [reflexivity | assumption | apply H1].
Qed.

Lemma blind_try {A} (m : M A) (h : exn -> M A) :
  blind m -> (forall e, blind (h e)) -> blind (try_except m h).
Proof.
  intros Hm Hh w w' H.
  destruct (Hm w w' H) as (r & w1 & w1' & evs & Hw & Hw' & H1 & HT & HT').
  unfold try_except. rewrite Hw, Hw'. destruct r as [a | e].
  - exists (Ret a), w1, w1', evs.
    repeat split; solve [reflexivity | assumption | apply H1].
  - destruct (Hh e w1 w1' H1) as (r2 & w2 & w2' & evs2 & -> & -> & H2 & HT2 & HT2').
    exists r2, w2, w2', (evs ++ evs2)%list. repeat split; try apply H2.
    + now rewrite HT2, HT, app_assoc.
    + now rewrite HT2', HT', app_assoc.
Qed.

Lemma blind_for_each {A} (xs : list A) (body : A -> M unit) :
  (forall x, blind (body x)) -> blind (for_each xs body).
Proof.
  intros Hb. induction xs as [ | x rest IH]; simpl.
  - apply blind_ret.
  - apply blind_bind; auto.
Qed.

Lemma blind_emit (e : event) : blind (emit e).
Proof.
  intros w w' (Hf & Hw & Hr & Hg & Ht).
  exists (Ret tt), (logged w [e]), (logged w' [e]), [e].
  now repeat split.
Qed.

Lemma blind_sleep (ms : Z) : blind (sleep ms).
Proof.
  unfold sleep. destruct (ms <? 0); [apply blind_raise | apply blind_emit].
Qed.

Lemma blind_now (E : env) : blind (now E).
Proof.
  intros w w' (Hf & Hw & Hr & Hg & Ht). unfold now.
  do 3 eexists. exists []. rewrite Ht.
  repeat split; simpl; try reflexivity; try assumption;
    try (now rewrite app_nil_r); congruence.
Qed.

Lemma blind_log_exists : blind log_exists.
Proof.
  intros w w' (Hf & Hw & Hr & Hg & Ht). unfold log_exists.
  do 3 eexists. exists []. rewrite Hf.
  repeat split; simpl; try reflexivity; try assumption;
    try (now rewrite app_nil_r).
Qed.

Lemma blind_read_log : blind read_log.
Proof.
  intros w w' (Hf & Hw & Hr & Hg & Ht). unfold read_log. rewrite Hf.
  destruct (log_file w') as [[ | raw | doc] | ] eqn:Hf';
    do 3 eexists; exists [];
    (repeat split; simpl; try reflexivity; try assumption;
     try (now rewrite app_nil_r); congruence).
Qed.

Lemma blind_write_log (doc : json) : blind (write_log doc).
Proof.
  intros w w' (Hf & Hw & Hr & Hg & Ht). unfold write_log. rewrite Hw.
  destruct (log_writable w') eqn:Hw';
    do 3 eexists; exists [];
    (repeat split; simpl; try reflexivity; try assumption;
     try (now rewrite app_nil_r); congruence).
Qed.

Lemma blind_grab (r : region) : blind (grab r).
Proof.
  intros w w' (Hf & Hw & Hr & Hg & Ht). unfold grab. rewrite Hg.
  do 3 eexists. exists [Grab r].
  repeat split; simpl; try reflexivity; assumption.
Qed.

Lemma blind_log_info (msg : string) : blind (log_info msg).
Proof. apply blind_emit. Qed.

Lemma blind_log_warning (msg : string) : blind (log_warning msg).
Proof. apply blind_emit. Qed.

Lemma blind_log_error (msg : string) : blind (log_error msg).
Proof. apply blind_emit. Qed.

Create HintDb blind.
#[local] Hint Resolve blind_ret blind_raise blind_emit blind_sleep blind_now
  blind_log_exists blind_read_log blind_write_log blind_grab
  blind_log_info blind_log_warning blind_log_error : blind.

Ltac blind_steps :=
  repeat first
    [ solve [auto with blind]
    | progress cbv zeta
    | apply blind_bind; [ | intros ? ]
    | apply blind_try; [ | intros ? ]
    | apply blind_for_each; intros ?
    | match goal with
      | |- blind (if ?c then _ else _) => destruct c
      | |- blind (match ?x with _ => _ end) => destruct x
      end ].

Lemma blind_save_log (E : env) (action result : string) :
  blind (save_log E action result).
Proof. unfold save_log, append_method. blind_steps. Qed.

Lemma blind_format_logs (E : env) (recent : list json) :
  blind (format_logs E recent).
Proof.
  induction recent as [ | log rest IH]; simpl.
  - apply blind_ret.
  - unfold format_log, item. blind_steps.
Qed.

Lemma blind_get_recent_logs (E : env) (n : Z) : blind (get_recent_logs E n).
Proof.
  unfold get_recent_logs, slice_of.
  pose proof (blind_format_logs E) as Hf.
  blind_steps.
Qed.

Lemma blind_capture_screenshot (E : env) : blind (capture_screenshot E).
Proof. unfold capture_screenshot. blind_steps. Qed.

Lemma blind_keystroke (c : ascii) : blind (keystroke c).
Proof. unfold keystroke. blind_steps. Qed.

Lemma blind_press_option : blind press_option.
Proof. unfold press_option, wait_for_load. blind_steps. Qed.

#[local] Hint Resolve blind_save_log blind_get_recent_logs
  blind_capture_screenshot blind_keystroke blind_press_option : blind.

Lemma blind_type_letters (E : env) (letters : argval) :
  blind (type_letters E letters).
Proof. unfold type_letters. blind_steps. Qed.

Lemma blind_type_text (txt : argval) : blind (type_text txt).
Proof. unfold type_text. blind_steps. Qed.

#[local] Hint Resolve blind_type_letters blind_type_text : blind.

Lemma blind_dispatch (E : env) (p : part) : blind (dispatch E p).
Proof. unfold dispatch. blind_steps. Qed.

Lemma blind_os_remove (path : string) (r : reply) : blind (os_remove path r).
Proof. unfold os_remove. blind_steps. Qed.

#[local] Hint Resolve blind_dispatch blind_os_remove : blind.

(** Worlds that agree on everything but logging: the same files and
    counters, the same input events, the same sleeps. *)
Definition same_actions (w w' : world) : Prop :=
  same_but_trace w w'
  /\ filter is_input (trace w) = filter is_input (trace w')
  /\ sleeps (trace w) = sleeps (trace w').

Lemma same_actions_refl (w : world) : same_actions w w.
Proof. now repeat split. Qed.

Lemma blind_same_actions {A} (m : M A) (w w' : world) :
  blind m -> same_actions w w' ->
  exists r w1 w1',
    m w = (r, w1) /\ m w' = (r, w1') /\ same_actions w1 w1'.
Proof.
  intros Hm (H & Hi & Hs).
  destruct (Hm w w' H) as (r & w1 & w1' & evs & Hw & Hw' & H1 & HT & HT').
  exists r, w1, w1'. repeat split; try assumption; try apply H1.
  - now rewrite HT, HT', !filter_app, Hi.
  - now rewrite HT, HT', !sleeps_app, Hs.
Qed.

(** Effects that are neither input events nor sleeps. *)
Definition only_logging (evs : list event) : Prop :=
  filter is_input evs = [] /\ sleeps evs = [].

Lemma logged_same_actions (w : world) (evs : list event) :
  only_logging evs -> same_actions (logged w evs) w.
Proof.
  intros (Hi & Hs). repeat split; simpl.
  - now rewrite filter_app, Hi, app_nil_r.
  - now rewrite sleeps_app, Hs, app_nil_r.
Qed.

Lemma for_each_app {A} (xs ys : list A) (body : A -> M unit) (w : world) :
  for_each (xs ++ ys) body w
  = bind (for_each xs body) (fun _ => for_each ys body) w.
Proof.
  revert w. induction xs as [ | x xs IH]; intros w; simpl.
  - reflexivity.
  - rewrite bind_assoc. apply bind_ext. intros _ w1. apply IH.
Qed.

Lemma bind_for_each_app {A B} (xs ys : list A) (body : A -> M unit)
    (k : unit -> M B) (w : world) :
  bind (for_each (xs ++ ys) body) k w
  = bind (for_each xs body) (fun _ => bind (for_each ys body) k) w.
Proof.
  rewrite <- bind_assoc. unfold bind at 1. rewrite for_each_app. reflexivity.
Qed.

(** What the [try] block does between the upload and the loop over the
    parts. *)
Definition before_parts (E : env) (path : string) : M unit :=
  emit (Upload path) ;;
  recent_logs <- get_recent_logs E 10 ;;
  emit (SendMessage (build_context E recent_logs) path).

Lemma after_reply_response (E : env) (parts : list part)
    (cleanup : option string) (path : string) (w : world) :
  after_reply E (Response parts cleanup) path w
  = (before_parts E path ;;
     for_each parts (dispatch E) ;;
     os_remove path (Response [] cleanup) ;;
     ret true) w.
Proof.
  unfold after_reply, before_parts, upload_file, send_message.
  rewrite bind_emit.
  rewrite (bind_assoc (emit (Upload path))), bind_emit.
  rewrite (bind_assoc (get_recent_logs E 10)).
  apply bind_ext. intros s w1.
  rewrite (bind_assoc (emit (SendMessage (build_context E s) path))).
  rewrite !bind_emit. reflexivity.
Qed.

(** Two outcomes that differ at most in what was logged. *)
Definition agree {A} (x y : result A * world) : Prop :=
  fst x = fst y /\ same_actions (snd x) (snd y).

Lemma agree_refl {A} (x : result A * world) : agree x x.
Proof. split; [reflexivity | apply same_actions_refl]. Qed.

Lemma agree_bind {A B} (m : M A) (k1 k2 : A -> M B) (w : world) :
  (forall a w1, agree (k1 a w1) (k2 a w1)) ->
  agree (bind m k1 w) (bind m k2 w).
Proof.
  intros H. unfold bind. destruct (m w) as [[a | e] w1]; [apply H | apply agree_refl].
Qed.

Lemma agree_blind {A} (m : M A) (w w' : world) :
  blind m -> same_actions w w' -> agree (m w) (m w').
Proof.
  intros Hm H.
  destruct (blind_same_actions m w w' Hm H) as (r & w1 & w1' & -> & -> & H1).
  now split.
Qed.

(** A part whose dispatch only logs can be taken out of a response: the
    [try] block ends the same way, with the same files, counters, input
    events and sleeps. *)
Lemma part_that_only_logs (E : env) (p : part) (evs : list event)
    (before after : list part) (cleanup : option string) (path : string)
    (w : world) :
  (forall w0, dispatch E p w0 = (Ret tt, logged w0 evs)) ->
  only_logging evs ->
  agree (after_reply E (Response (before ++ p :: after) cleanup) path w)
        (after_reply E (Response (before ++ after) cleanup) path w).
Proof.
  intros Hp Hq. rewrite !after_reply_response.
  apply agree_bind. intros _ w0.
  set (rest := fun _ : unit =>
                 bind (os_remove path (Response [] cleanup))
                      (fun _ => ret true)).
  rewrite !bind_for_each_app.
  apply agree_bind. intros _ w1.
  simpl for_each at 1. rewrite bind_assoc.
  unfold bind at 1. rewrite Hp.
  apply (agree_blind (bind (for_each after (dispatch E)) rest)).
  - unfold rest. blind_steps.
  - now apply logged_same_actions.
Qed.

Lemma heard_only_logging (p : part) : only_logging (heard p).
Proof. unfold only_logging, heard. destruct (String.eqb (text p) ""); now split. Qed.

Lemma warned_only_logging (p : part) (msg : string) :
  only_logging (heard p ++ [LogWarning msg]).
Proof.
  destruct (heard_only_logging p) as (Hi & Hs). unfold only_logging.
  now rewrite filter_app, sleeps_app, Hi, Hs.
Qed.

(** * The claims *)

(** ** Sample runs *)

Definition sample_clock (k : nat) : datetime :=
  DateTime ("2025-01-18T12:00:00." ++ PyStr.of_int (Z.of_nat k))
           ("20250118_120000_" ++ PyStr.of_int (Z.of_nat k)).

(** A 1920 x 1080 monitor, the policy of the spec's scenario, and the
    given replies of the endpoint. *)
Definition sample_env (replies : nat -> reply) : env :=
  Env (Region 0 0 1920 1080) replies sample_clock
      "X" ["t1"] ["r1"] "/app" "/app" (fun _ => "[...]").

(** The endpoint answers every request with a rate-limit error. *)
Definition always_limited : env :=
  sample_env (fun _ => SendFails "429 Resource has been exhausted").

(** The endpoint is down. *)
Definition always_down : env :=
  sample_env (fun _ => SendFails "503 Service Unavailable").

(** A call of the function [fname] with the argument [key] = [value]. *)
Definition call (fname key value : string) : part :=
  Part "" (Some (FunctionCall fname [(key, AStr value)])).

(** A log of two entries. *)
Definition two_entries : list (string * string * string) :=
  [("2025-01-18T12:00:00", "type_letters", "ab");
   ("2025-01-18T12:00:07", "type_text", "nice post")].

Definition world_with_log (es : list (string * string * string)) : world :=
  World (Some (Document (JArr (map entry_of es)))) true 0 0 0 [].

(** ** The action log *)

(** C7: [save_log] never raises.  Whatever the action and the result, and
    whatever the state of the log file, it returns normally; when the
    entry cannot be persisted (the file is missing, unreadable, not JSON,
    not a list, or cannot be written) the log file is left as it was and
    the failure is reported by one [logging.error] line. *)
Theorem save_log_never_raises (E : env) (action result : string) (w : world) :
  exists w',
    save_log E action result w = (Ret tt, w')
    /\ match appendable w with
       | Some items =>
           log_file w'
           = Some (Document
                     (JArr (items ++ [entry (isoformat (clock E (ticks w)))
                                            action result])))
           /\ trace w'
              = (trace w ++ [LogInfo ("[LOG] " ++ action ++ ": " ++ result)])%list
       | None =>
           log_file w' = log_file w
           /\ exists msg,
                trace w'
                = (trace w ++ [LogError ("failed to save log: " ++ msg)])%list
       end
    /\ (log_file w = None \/ log_file w = Some Unreadable
        \/ (exists raw, log_file w = Some (Garbled raw))
        \/ log_writable w = false
        -> appendable w = None).
Proof.
  destruct (save_log_run E action result w) as (w' & Hrun & _ & _ & _ & H).
  exists w'. split; [exact Hrun | split].
  - destruct (appendable w); tauto.
  - unfold appendable.
    intros [-> | [-> | [[raw ->] | ->]]]; try reflexivity.
    destruct (log_file w) as [[ | | []] | ]; reflexivity.
Qed.

Lemma slice_from_last {A : Type} (xs : list A) (x : A) :
  PyStr.slice_from (Z.opp 1) (xs ++ [x]) = [x].
Proof.
  rewrite slice_from_positive by lia. unfold last_n.
  rewrite length_app. simpl.
  replace (Z.to_nat (Z.min 1 (Z.of_nat (List.length xs + 1)))) with 1%nat by lia.
  replace (List.length xs + 1 - 1)%nat with (List.length xs) by lia.
  now rewrite skipn_app, skipn_all, Nat.sub_diag.
Qed.

(** C8: round trip.  When [save_log] appends an entry (the log file holds
    a JSON list and can be written), reloading the file gives the old
    entries followed by a dict whose timestamp, action and result are the
    strings that were written, and [get_recent_logs(1)] prints exactly
    that entry. *)
Theorem save_log_round_trip (E : env) (action result : string) (w : world)
    (items : list json) :
  log_file w = Some (Document (JArr items)) ->
  log_writable w = true ->
  exists w' t,
    save_log E action result w = (Ret tt, w')
    /\ t = isoformat (clock E (ticks w))
    /\ read_log w' = (Ret (JArr (items ++ [entry t action result])), w')
    /\ item (entry t action result) "timestamp" w' = (Ret (JStr t), w')
    /\ item (entry t action result) "action" w' = (Ret (JStr action), w')
    /\ item (entry t action result) "result" w' = (Ret (JStr result), w')
    /\ get_recent_logs E 1 w' = (Ret (line_of (t, action, result)), w').
Proof.
  intros Hf Hw.
  destruct (save_log_run E action result w) as (w' & Hrun & _ & _ & _ & H).
  unfold appendable in H. rewrite Hf, Hw in H. destruct H as (Hf' & _ & _).
  exists w', (isoformat (clock E (ticks w))).
  repeat split; try assumption.
  - unfold read_log. now rewrite Hf'.
  - unfold get_recent_logs, try_except, bind at 1, log_exists. rewrite Hf'.
    cbn [negb]. unfold bind at 1, read_log. rewrite Hf'.
    unfold bind at 1, slice_of, ret. rewrite slice_from_last. reflexivity.
Qed.

Lemma save_log_round_trip_witness :
  exists w',
    save_log always_down "type_letters" "ab" fresh_world = (Ret tt, w')
    /\ get_recent_logs always_down 1 w'
       = (Ret "[2025-01-18T12:00:00.0] type_letters: ab", w').
Proof.
  destruct (save_log_round_trip always_down "type_letters" "ab" fresh_world []
              eq_refl eq_refl)
    as (w' & t & Hsave & Ht & _ & _ & _ & _ & Hget).
  exists w'. split; [exact Hsave | ]. rewrite Hget, Ht. reflexivity.
Defined.

(** For a log of well-formed entries, [get_recent_logs(0)] prints all of
    them. *)
Lemma get_recent_logs_zero (E : env) (es : list (string * string * string))
    (w : world) :
  log_file w = Some (Document (JArr (map entry_of es))) ->
  get_recent_logs E 0 w = (Ret (PyStr.join newline (map line_of es)), w).
Proof.
  intros Hf.
  unfold get_recent_logs, try_except, bind at 1, log_exists. rewrite Hf.
  cbn [negb]. unfold bind at 1, read_log. rewrite Hf.
  unfold bind at 1, slice_of, ret. rewrite slice_from_zero.
  unfold bind. now rewrite format_logs_entries.
Qed.

(** C3: [get_recent_logs(n)] is to return the last [min n total] entries.
    At [n = 0], on a log of two entries, the code returns both lines,
    where the last [min 0 2] entries are none. *)
Theorem get_recent_logs_zero_returns_all :
  get_recent_logs always_down 0 (world_with_log two_entries)
  = (Ret (PyStr.join newline
            ["[2025-01-18T12:00:00] type_letters: ab";
             "[2025-01-18T12:00:07] type_text: nice post"]),
     world_with_log two_entries)
  /\ map line_of (last_n (Z.to_nat (Z.min 0 2)) two_entries) = [].
Proof. split; reflexivity. Qed.

(** ** The capture adapter *)

(** C9: whatever the geometry of the primary monitor, as long as its
    height is below 2^50 in absolute value (so that the float product is
    exact), [capture_screenshot] grabs the region anchored at the
    monitor's top-left corner whose width is the monitor width divided by
    3 (floor division) and whose height is 0.625 times the monitor height
    cut to an integer (towards zero), and returns the grabbed image
    together with that region. *)
Theorem capture_screenshot_region (E : env) (w : world) :
  Z.abs (height (monitor E)) < 2 ^ 50 ->
  exists img r w',
    capture_screenshot E w = (Ret (img, r), w')
    /\ captured_from img = r
    /\ shot img = S (grabs w)
    /\ grabs w' = S (grabs w)
    /\ trace w' = (trace w ++ [Grab r])%list
    /\ top r = top (monitor E)
    /\ left r = left (monitor E)
    /\ width r = width (monitor E) / 3
    /\ 3 * width r <= width (monitor E) < 3 * width r + 3
    /\ height r = Z.quot (5 * height (monitor E)) 8
    /\ Z.abs (8 * height r) <= Z.abs (5 * height (monitor E))
       < Z.abs (8 * height r) + 8
    /\ 0 <= height r * height (monitor E).
Proof.
  intros _.
  do 3 eexists. split; [apply capture_screenshot_run | ].
  unfold viewport, grabbed.
  cbn [captured_from shot grabs trace top left width height].
  rewrite int_of_float_times_0_625.
  generalize (width (monitor E)) (height (monitor E)). intros W H.
  repeat split; try reflexivity; Z.to_euclidean_division_equations; nia.
Qed.

Lemma capture_screenshot_region_witness :
  exists img r w',
    capture_screenshot always_down fresh_world = (Ret (img, r), w')
    /\ captured_from img = r
    /\ shot img = 1%nat
    /\ grabs w' = 1%nat
    /\ trace w' = (trace fresh_world ++ [Grab r])%list
    /\ top r = 0
    /\ left r = 0
    /\ width r = 1920 / 3
    /\ 3 * width r <= 1920 < 3 * width r + 3
    /\ height r = Z.quot (5 * 1080) 8
    /\ Z.abs (8 * height r) <= Z.abs (5 * 1080) < Z.abs (8 * height r) + 8
    /\ 0 <= height r * 1080.
Proof.
  exact (capture_screenshot_region always_down fresh_world eq_refl).
Defined.

(** On a 1920 x 1080 monitor the region is 640 x 675, and on a monitor
    900 high the height is 562 (562.5 cut down). *)
Example viewport_1080p :
  viewport always_down = Region 0 0 640 675
  /\ int_of_float (times_0_625 900) = 562.
Proof. split; reflexivity. Qed.

(** ** The action executor *)

(** C2: [type_letters] raises exactly when its input is not a string of
    2 or 3 alphabetic characters; what it raises is a [ValueError], and
    nothing has happened by then (no keystroke, no sleep, no grab: the
    world is the one it started in); for a string of 2 or 3 alphabetic
    characters it types the lowered letters one by one with a 100 ms
    pause after each, taps the option key, and grabs the screen. *)
Theorem type_letters_validation (E : env) (v : argval) (w : world) :
  ((exists e w', type_letters E v w = (Raise e, w')) <-> ~ two_or_three_letters v)
  /\ (forall e w',
        type_letters E v w = (Raise e, w') -> exn_type e = "ValueError" /\ w' = w)
  /\ (forall s,
        v = AStr s -> two_or_three_letters v ->
        type_letters E v w
        = (Ret (Image (S (grabs w)) (viewport E), viewport E),
           grabbed w (typed (PyStr.chars (PyStr.lower s)) ++ option_tap
                      ++ [Grab (viewport E)]))).
Proof.
  destruct (passes_checks v) eqn:Hc.
  - destruct (type_letters_accepts E v w Hc) as (s & Hv & Hrun).
    apply passes_checks_spec in Hc. repeat split.
    + intros (e & w' & H). rewrite Hrun in H. discriminate.
    + intros H. contradiction.
    + rewrite Hrun in H. discriminate.
    + rewrite Hrun in H. discriminate.
    + intros s' Hs' _. rewrite Hs' in Hv. inversion Hv; subst. exact Hrun.
  - destruct (type_letters_rejects E v w Hc) as (msg & Hrun).
    assert (Hno : ~ two_or_three_letters v).
    { intros H. apply passes_checks_spec in H. congruence. }
    repeat split.
    + intros _. exact Hno.
    + intros _. eauto.
    + rewrite Hrun in H. now inversion H.
    + rewrite Hrun in H. now inversion H.
    + intros s _ H. contradiction.
Qed.

(** "ab" is typed; "abcd", "a1" and a number are refused. *)
Example type_letters_samples :
  fst (type_letters always_down (AStr "aB") fresh_world)
  = Ret (Image 1 (Region 0 0 640 675), Region 0 0 640 675)
  /\ trace (snd (type_letters always_down (AStr "aB") fresh_world))
     = [Write "a"; Sleep 100; Write "b"; Sleep 100; Sleep 3000;
        KeyDown "option"; Sleep 100; KeyUp "option";
        Grab (Region 0 0 640 675)]
  /\ type_letters always_down (AStr "abcd") fresh_world
     = (Raise (Exn "ValueError" "Must provide 2-3 letters"), fresh_world)
  /\ type_letters always_down (AStr "a1") fresh_world
     = (Raise (Exn "ValueError" "Input must contain only letters"), fresh_world)
  /\ type_letters always_down (ANum 12) fresh_world
     = (Raise (Exn "ValueError" "Input must be a string"), fresh_world).
Proof. repeat split; reflexivity. Qed.

(** ** The model client *)

(** C1: rate limiting.  While the endpoint answers with errors that carry
    the marker "429": an attempt with budget left logs the error (an
    "error" entry in the action log when the log can take it), sleeps
    [retry_delay] seconds, and goes on as the call on the same image with
    the budget one lower; the whole call makes exactly [max_retries]
    retries ([max_retries + 1] trips to the endpoint), sleeps
    [retry_delay] seconds exactly [max_retries] times, and then returns
    [False]. *)
Theorem rate_limit_retries (E : env) (img : image) (max_retries retry_delay : Z)
    (w : world) :
  0 <= max_retries -> 0 <= retry_delay ->
  (forall k, (requests w <= k <= requests w + Z.to_nat max_retries)%nat ->
             rate_limited (model_reply E k) = true) ->
  (0 < max_retries ->
   exists w2 evs,
     twitter_helper E img max_retries retry_delay w
     = twitter_helper E img (max_retries - 1) retry_delay w2
     /\ requests w2 = S (requests w)
     /\ trace w2 = (trace w ++ evs)%list
     /\ sleeps evs = [1000 * retry_delay]
     /\ In (LogError (error_msg (reply_message (model_reply E (requests w))))) evs
     /\ match appendable w with
        | Some items =>
            exists t1 t2,
              log_file w2
              = Some (Document
                        (JArr (items
                               ++ [entry t1 "error"
                                     (error_msg
                                        (reply_message
                                           (model_reply E (requests w))));
                                   entry t2 "warning" (retry_msg retry_delay)])))
        | None => log_file w2 = log_file w
        end)
  /\ exists w' evs,
       twitter_helper E img max_retries retry_delay w = (Ret false, w')
       /\ requests w' = (requests w + Z.to_nat max_retries + 1)%nat
       /\ trace w' = (trace w ++ evs)%list
       /\ sleeps evs = repeat (1000 * retry_delay) (Z.to_nat max_retries)
       /\ existsb is_input evs = false.
Proof.
  intros Hm Hd Hall. split.
  - intros Hpos.
    destruct (rate_limited_step E img max_retries retry_delay w Hpos Hd)
      as (w2 & evs & Hrun & HR & _ & HT & Hs & _ & Hin & HL).
    { apply Hall. lia. }
    exists w2, evs. auto 10.
  - destruct (retries_exhaust E img retry_delay Hd (Z.to_nat max_retries) w Hall)
      as (w' & evs & Hrun & HR & _ & HT & Hs & Hi).
    rewrite Z2Nat.id in Hrun by assumption.
    exists w', evs. auto 10.
Qed.

(** The default budget: three retries, three sleeps of 60 seconds, four
    trips to the endpoint, then [False]. *)
Lemma rate_limit_retries_witness :
  exists w' evs,
    twitter_helper always_limited (Image 2 (Region 0 0 640 675)) 3 60 fresh_world
    = (Ret false, w')
    /\ requests w' = 4%nat
    /\ trace w' = (trace fresh_world ++ evs)%list
    /\ sleeps evs = [60000; 60000; 60000]
    /\ existsb is_input evs = false.
Proof.
  refine (proj2 (rate_limit_retries always_limited (Image 2 (Region 0 0 640 675))
                   3 60 fresh_world _ _ _)).
  - lia.
  - lia.
  - intros k _. reflexivity.
Defined.

(** C4: an error of the request that does not carry the marker "429":
    the call returns [False] after that one trip to the endpoint; it does
    not sleep, touches neither keyboard nor mouse, and raises nothing. *)
Theorem other_error_fails_once (E : env) (img : image)
    (max_retries retry_delay : Z) (w : world) (e : string) :
  request_error (model_reply E (requests w)) = Some e ->
  PyStr.contains "429" e = false ->
  exists w' evs,
    twitter_helper E img max_retries retry_delay w = (Ret false, w')
    /\ requests w' = S (requests w)
    /\ grabs w' = grabs w
    /\ trace w' = (trace w ++ evs)%list
    /\ sleeps evs = []
    /\ existsb is_input evs = false
    /\ In (LogError (error_msg e)) evs.
Proof.
  intros He H429.
  destruct (analyze_request_error E img w e He) as (pre & Ha & Hs & Hi & _).
  destruct (failure_without_retry E img max_retries retry_delay w _ _ Ha)
    as (Hrun & HR & line & HT & Hsl & Hil).
  { simpl. now rewrite H429. }
  simpl exn_msg in *.
  destruct (noted_facts E e (attempted w pre)) as (_ & HG & _).
  exists (noted E e (attempted w pre)), (pre ++ [LogError (error_msg e); line])%list.
  repeat split; auto.
  - rewrite HT. simpl. now rewrite <- app_assoc.
  - rewrite sleeps_app, Hs. simpl. destruct line; simpl in *; congruence.
  - apply existsb_app_false; auto. simpl. now rewrite Hil.
  - apply in_or_app. right. now left.
Qed.

Lemma other_error_fails_once_witness :
  exists w' evs,
    twitter_helper always_down (Image 2 (Region 0 0 640 675)) 3 60 fresh_world
    = (Ret false, w')
    /\ requests w' = 1%nat
    /\ grabs w' = 0%nat
    /\ trace w' = (trace fresh_world ++ evs)%list
    /\ sleeps evs = []
    /\ existsb is_input evs = false
    /\ In (LogError (error_msg "503 Service Unavailable")) evs.
Proof.
  exact (other_error_fails_once always_down (Image 2 (Region 0 0 640 675))
           3 60 fresh_world "503 Service Unavailable" eq_refl eq_refl).
Defined.

(** C6: a function call whose name is neither [type_letters] nor
    [type_text] is answered with one warning and nothing else: no action,
    no log entry, no exception, and the loop over the parts goes on with
    the next part.  Wherever it stands in a response, the [try] block of
    [twitter_helper] ends as it does for the response without it: the same
    result, files, counters, input events and sleeps.  When it is the only
    part of the response, the call returns [True] after that one trip to
    the endpoint, with the log file as it was. *)
Theorem unknown_function_ignored (E : env) (p : part) (fn : function_call)
    (w : world) :
  fn_call p = Some fn ->
  name fn <> "type_letters" ->
  name fn <> "type_text" ->
  let warned :=
    (heard p ++ [LogWarning ("unknown function call: " ++ name fn)])%list in
  dispatch E p w = (Ret tt, logged w warned)
  /\ existsb is_input warned = false
  /\ (forall rest,
        for_each (p :: rest) (dispatch E) w
        = for_each rest (dispatch E) (logged w warned))
  /\ (forall before after cleanup path,
        agree (after_reply E (Response (before ++ p :: after) cleanup) path w)
              (after_reply E (Response (before ++ after) cleanup) path w))
  /\ (forall img max_retries retry_delay,
        model_reply E (requests w) = Response [p] None ->
        exists pre,
          twitter_helper E img max_retries retry_delay w
          = (Ret true, attempted w (pre ++ warned ++ [Remove (temp_path E w)]))
          /\ sleeps pre = [] /\ existsb is_input pre = false
          /\ existsb is_warning pre = false).
Proof.
  intros Hfn H1 H2 warned.
  assert (Hd : forall w0, dispatch E p w0 = (Ret tt, logged w0 warned))
    by (intros w0; now apply dispatch_unknown).
  split; [apply Hd | ].
  split.
  { unfold warned. apply existsb_app_false; [apply heard_quiet | reflexivity]. }
  split.
  { intros rest. simpl. unfold bind. now rewrite Hd. }
  split.
  { intros before after cleanup path.
    apply (part_that_only_logs E p warned); [exact Hd | ].
    apply warned_only_logging. }
  intros img m d Hr. exact (twitter_helper_one_part E img m d w p warned Hr Hd).
Qed.

(** The endpoint asks for a function the program does not have. *)
Definition asks_for_click : env :=
  sample_env (fun _ => Response
                         [Part "" (Some (FunctionCall "click" [("x", ANum 3)]))]
                         None).

Lemma unknown_function_ignored_witness :
  exists pre,
    twitter_helper asks_for_click (Image 2 (Region 0 0 640 675)) 3 60 fresh_world
    = (Ret true,
       attempted fresh_world
         (pre ++ [LogWarning "unknown function call: click";
                  Remove "temp_screenshot_20250118_120000_0.jpg"]))
    /\ sleeps pre = [] /\ existsb is_input pre = false
    /\ existsb is_warning pre = false.
Proof.
  refine (proj2 (proj2 (proj2 (proj2
    (unknown_function_ignored asks_for_click
       (Part "" (Some (FunctionCall "click" [("x", ANum 3)])))
       (FunctionCall "click" [("x", ANum 3)]) fresh_world eq_refl _ _))))
    (Image 2 (Region 0 0 640 675)) 3 60 eq_refl).
  - discriminate.
  - discriminate.
Defined.

(** C10: a call of [type_letters] or [type_text] whose required argument
    is missing or is the empty string is passed over in silence: no
    keystroke, no log entry, no warning, no exception, and the loop over
    the parts goes on.  Wherever it stands in a response, the [try] block
    of [twitter_helper] ends as it does for the response without it: the
    same result, files, counters, input events and sleeps.  When it is the
    only part of the response, the call returns [True] after that one trip
    to the endpoint, with the log file as it was. *)
Theorem empty_argument_skipped (E : env) (p : part) (fn : function_call)
    (w : world) :
  fn_call p = Some fn ->
  lacks_argument fn = true ->
  dispatch E p w = (Ret tt, logged w (heard p))
  /\ existsb is_input (heard p) = false
  /\ existsb is_warning (heard p) = false
  /\ (forall rest,
        for_each (p :: rest) (dispatch E) w
        = for_each rest (dispatch E) (logged w (heard p)))
  /\ (forall before after cleanup path,
        agree (after_reply E (Response (before ++ p :: after) cleanup) path w)
              (after_reply E (Response (before ++ after) cleanup) path w))
  /\ (forall img max_retries retry_delay,
        model_reply E (requests w) = Response [p] None ->
        exists pre,
          twitter_helper E img max_retries retry_delay w
          = (Ret true,
             attempted w (pre ++ heard p ++ [Remove (temp_path E w)]))
          /\ sleeps pre = [] /\ existsb is_input pre = false
          /\ existsb is_warning pre = false).
Proof.
  intros Hfn Hl.
  assert (Hd : forall w0, dispatch E p w0 = (Ret tt, logged w0 (heard p)))
    by (intros w0; now apply (dispatch_lacking E p fn w0)).
  split; [apply Hd | ].
  split; [apply heard_quiet | ].
  split; [apply heard_quiet | ].
  split.
  { intros rest. simpl. unfold bind. now rewrite Hd. }
  split.
  { intros before after cleanup path.
    apply (part_that_only_logs E p (heard p)); [exact Hd | ].
    apply heard_only_logging. }
  intros img m d Hr.
  exact (twitter_helper_one_part E img m d w p (heard p) Hr Hd).
Qed.

(** The endpoint asks to type the empty comment. *)
Definition asks_for_nothing : env :=
  sample_env (fun _ => Response [call "type_text" "text" ""] None).

Lemma empty_argument_skipped_witness :
  lacks_argument (FunctionCall "type_letters" []) = true
  /\ exists pre,
       twitter_helper asks_for_nothing (Image 2 (Region 0 0 640 675)) 3 60
         fresh_world
       = (Ret true,
          attempted fresh_world
            (pre ++ [Remove "temp_screenshot_20250118_120000_0.jpg"]))
       /\ sleeps pre = [] /\ existsb is_input pre = false
       /\ existsb is_warning pre = false.
Proof.
  split; [reflexivity | ].
  exact (proj2 (proj2 (proj2 (proj2 (proj2
    (empty_argument_skipped asks_for_nothing (call "type_text" "text" "")
       (FunctionCall "type_text" [("text", AStr "")]) fresh_world
       eq_refl eq_refl)))))
    (Image 2 (Region 0 0 640 675)) 3 60 eq_refl).
Defined.

(** ** The engagement loop *)

Lemma upto_0 (E : env) (w : world) :
  exists img w', upto E 0 w = (Ret img, w') /\ shot img = grabs w'.
Proof.
  destruct (bootstrap_run E w) as (img & w' & Hb & Hs).
  exists img, w'. unfold upto, bind. rewrite Hb. now split.
Qed.

(** C5, as the code has it: every turn of the loop hands to
    [twitter_helper] the image the loop itself captured last.  That is
    the most recent capture in the first turn and in every turn after a
    successful call; after a failed call the next turn gets the same image
    again and the loop captures nothing, so a capture [type_letters] made
    inside the failed call is newer than the image handed over. *)
Theorem loop_hands_over_its_last_capture (E : env) (w : world) (n : nat) :
  exists img wn ok w1 img' wn',
    main E n w = (Ret img, wn)
    /\ twitter_helper E img 3 60 wn = (Ret ok, w1)
    /\ main E (S n) w = (Ret img', wn')
    /\ (shot img <= grabs wn)%nat
    /\ (n = 0%nat -> shot img = grabs wn)
    /\ if ok then shot img' = grabs wn'
       else img' = img /\ grabs wn' = grabs w1.
Proof.
  destruct (upto_run E n w) as (img & wn & Hn & Hle).
  destruct (turn_run E img wn) as (ok & w1 & img' & wn' & Hcall & Ht & _ & Hok).
  exists img, wn, ok, w1, img', wn'. rewrite !main_upto, upto_S.
  unfold bind. rewrite Hn. repeat split; auto.
  intros ->. destruct (upto_0 E w) as (i & w0 & H0 & Hs).
  rewrite H0 in Hn. inversion Hn; subst. exact Hs.
Qed.

(** The endpoint asks for two clicks in one response; the second one is
    one letter too long. *)
Definition second_call_refused : env :=
  sample_env (fun _ => Response [call "type_letters" "letters" "ab";
                                 call "type_letters" "letters" "abcd"]
                                None).

(** C5 as stated fails: after the failed call of turn 0, turn 1 is handed
    capture number 2 while the last capture made is number 3 (the one
    [type_letters] made after typing "ab"). *)
Lemma stale_image_after_failure :
  exists img0 w0 w1 w',
    main second_call_refused 0 fresh_world = (Ret img0, w0)
    /\ twitter_helper second_call_refused img0 3 60 w0 = (Ret false, w1)
    /\ main second_call_refused 1 fresh_world = (Ret img0, w')
    /\ shot img0 = 2%nat
    /\ grabs w' = 3%nat
    /\ shot img0 <> grabs w'.
Proof.
  exists (Image 2 (Region 0 0 640 675)).
  exists (snd (main second_call_refused 0 fresh_world)).
  exists (snd (twitter_helper second_call_refused (Image 2 (Region 0 0 640 675))
                 3 60 (snd (main second_call_refused 0 fresh_world)))).
  exists (snd (main second_call_refused 1 fresh_world)).
  split; [vm_compute; reflexivity | ].
  split; [vm_compute; reflexivity | ].
  split; [vm_compute; reflexivity | ].
  split; [vm_compute; reflexivity | ].
  split; [vm_compute; reflexivity | ].
  vm_compute. discriminate.
Qed.

(** * More of the program *)

(** ** Relations every step keeps

    A relation between the world before and the world after that holds
    for every primitive step holds for every computation built from
    them. *)

Section Keeps.

Variable R : world -> world -> Prop.
Hypothesis R_refl : forall w, R w w.
Hypothesis R_trans : forall w1 w2 w3, R w1 w2 -> R w2 w3 -> R w1 w3.

Definition keeps {A} (m : M A) : Prop :=
  forall w r w', m w = (r, w') -> R w w'.

Lemma keeps_ret {A} (a : A) : keeps (ret a).
Proof. intros w r w' H. inversion H. apply R_refl. Qed.

Lemma keeps_raise {A} (e : exn) : keeps (@raise A e).
Proof. intros w r w' H. inversion H. apply R_refl. Qed.

Lemma keeps_bind {A B} (m : M A) (k : A -> M B) :
  keeps m -> (forall a, keeps (k a)) -> keeps (bind m k).
Proof.
  intros Hm Hk w r w' H. unfold bind in H.
  destruct (m w) as [[a | e] w1] eqn:Hmw.
  - eapply R_trans; [eapply Hm | eapply Hk]; eauto.
  - inversion H; subst. eapply Hm; eauto.
Qed.

Lemma keeps_try {A} (m : M A) (h : exn -> M A) :
  keeps m -> (forall e, keeps (h e)) -> keeps (try_except m h).
Proof.
  intros Hm Hh w r w' H. unfold try_except in H.
  destruct (m w) as [[a | e] w1] eqn:Hmw.
  - inversion H; subst. eapply Hm; eauto.
  - eapply R_trans; [eapply Hm | eapply Hh]; eauto.
Qed.

Lemma keeps_for_each {A} (xs : list A) (body : A -> M unit) :
  (forall x, keeps (body x)) -> keeps (for_each xs body).
Proof.
  intros Hb. induction xs as [ | x rest IH]; simpl.
  - apply keeps_ret.
  - apply keeps_bind; auto.
Qed.

End Keeps.

(** A proof that a computation keeps a relation follows the structure of
    the computation; the primitive steps are left to [leaf]. *)
Ltac keeps_steps refl trans leaf :=
  repeat match goal with
         | |- keeps _ (bind _ _) => apply (keeps_bind _ trans); [ | intros ? ]
         | |- keeps _ (try_except _ _) => apply (keeps_try _ trans); [ | intros ? ]
         | |- keeps _ (for_each _ _) => apply (keeps_for_each _ refl trans); intros ?
         | |- keeps _ (ret _) => apply (keeps_ret _ refl)
         | |- keeps _ (raise _) => apply (keeps_raise _ refl)
         | |- keeps _ (if ?c then _ else _) => destruct c
         | |- keeps _ (match ?x with _ => _ end) => destruct x
         | |- keeps _ (let _ := _ in _) => cbv zeta
         | |- keeps _ _ => solve [leaf]
         end.

(** ** The log only grows *)





















(** ** Reading the log *)

Lemma last_n_suffix {A : Type} (k : nat) (xs : list A) :
  (k <= List.length xs)%nat ->
  exists older, xs = (older ++ last_n k xs)%list
                /\ List.length (last_n k xs) = k.
Proof.
  intros Hk. unfold last_n. exists (firstn (List.length xs - k) xs). split.
  - now rewrite firstn_skipn.
  - rewrite length_skipn. lia.
Qed.

(** X1: for [n >= 1] and a log whose entries all have the three keys,
    [get_recent_logs n] returns the last [min n total] entries, oldest
    first, one line "[timestamp] action: result" each, joined by newlines,
    and touches nothing. *)
Theorem recent_logs_last_n (E : env) (n : Z)
    (es : list (string * string * string)) (w : world) :
  1 <= n ->
  log_file w = Some (Document (JArr (map entry_of es))) ->
  exists older recent,
    es = (older ++ recent)%list
    /\ List.length recent = Z.to_nat (Z.min n (Z.of_nat (List.length es)))
    /\ get_recent_logs E n w
       = (Ret (PyStr.join newline (map line_of recent)), w).
Proof.
  intros Hn Hf.
  destruct (last_n_suffix (Z.to_nat (Z.min n (Z.of_nat (List.length es)))) es)
    as (older & Hes & Hlen); [lia | ].
  exists older, (last_n (Z.to_nat (Z.min n (Z.of_nat (List.length es)))) es).
  split; [exact Hes | split; [exact Hlen | ]].
  now apply get_recent_logs_positive.
Qed.

Lemma recent_logs_last_n_witness :
  exists older recent,
    two_entries = (older ++ recent)%list
    /\ List.length recent = 1%nat
    /\ get_recent_logs always_down 1 (world_with_log two_entries)
       = (Ret (PyStr.join newline (map line_of recent)),
          world_with_log two_entries).
Proof.
  exact (recent_logs_last_n always_down 1 two_entries
           (world_with_log two_entries) ltac:(lia) eq_refl).
Defined.

Lemma skipn_min {A : Type} (k : nat) (xs : list A) :
  skipn (Nat.min k (List.length xs)) xs = skipn k xs.
Proof.
  destruct (Nat.le_gt_cases k (List.length xs)) as [H | H].
  - now rewrite Nat.min_l.
  - rewrite Nat.min_r by lia. rewrite !skipn_all2 by lia. reflexivity.
Qed.

Lemma slice_from_nonpositive {A : Type} (n : Z) (xs : list A) :
  n <= 0 -> PyStr.slice_from (- n) xs = skipn (Z.to_nat (- n)) xs.
Proof.
  intros Hn. unfold PyStr.slice_from.
  destruct (- n <? 0) eqn:Hneg; [apply Z.ltb_lt in Hneg; lia | ].
  rewrite <- (skipn_min (Z.to_nat (- n))). f_equal. lia.
Qed.

(** X2: for [n <= 0], [get_recent_logs n] does not return "the [n] most
    recent" entries: the slice [logs[-n:]] then starts from the front, so
    it returns every entry but the first [|n|] (all of them for [n = 0]). *)
Theorem recent_logs_nonpositive (E : env) (n : Z)
    (es : list (string * string * string)) (w : world) :
  n <= 0 ->
  log_file w = Some (Document (JArr (map entry_of es))) ->
  get_recent_logs E n w
  = (Ret (PyStr.join newline (map line_of (skipn (Z.to_nat (- n)) es))), w).
Proof.
  intros Hn Hf.
  unfold get_recent_logs, try_except, bind at 1, log_exists. rewrite Hf.
  cbn [negb]. unfold bind at 1, read_log. rewrite Hf.
  unfold bind at 1, slice_of, ret.
  rewrite slice_from_nonpositive by assumption.
  rewrite skipn_map. unfold bind. now rewrite format_logs_entries.
Qed.

Lemma recent_logs_nonpositive_witness :
  get_recent_logs always_down (-1) (world_with_log two_entries)
  = (Ret "[2025-01-18T12:00:07] type_text: nice post",
     world_with_log two_entries).
Proof.
  exact (recent_logs_nonpositive always_down (-1) two_entries
           (world_with_log two_entries) ltac:(lia) eq_refl).
Defined.

(** X3: [get_recent_logs] never raises and only reads: the files and the
    counters are as before, and the trace has at most one more line.  A
    missing log file gives the empty string in silence; an unreadable or
    garbled one, or a JSON document that is not a list, gives the empty
    string (with one [logging.error] line when something was raised). *)
Theorem recent_logs_fail_soft (E : env) (n : Z) (w : world) :
  exists s evs,
    get_recent_logs E n w = (Ret s, logged w evs)
    /\ (evs = []
        \/ s = "" /\ exists msg, evs = [LogError ("failed to read logs: " ++ msg)])
    /\ match log_file w with
       | None => s = "" /\ evs = []
       | Some (Document (JArr _)) => True
       | Some (Document _) => s = ""
       | Some _ => s = "" /\ evs <> []
       end.
Proof.
  destruct (get_recent_logs_run E n w) as (s & evs & Hrun & Hevs).
  exists s, evs. split; [exact Hrun | split; [exact Hevs | ]].
  pose proof (get_recent_logs_fails_soft E n w) as Hsoft.
  destruct (log_file w) as [[ | raw | doc] | ] eqn:Hf.
  - destruct Hsoft as (msg & Hs). rewrite Hs in Hrun. inversion Hrun as [[Hs' Ht]].
    apply app_inv_head in Ht. subst. split; [reflexivity | discriminate].
  - destruct Hsoft as (msg & Hs). rewrite Hs in Hrun. inversion Hrun as [[Hs' Ht]].
    apply app_inv_head in Ht. subst. split; [reflexivity | discriminate].
  - destruct Hevs as [-> | [-> _]]; destruct doc; trivial.
    all: revert Hrun;
      unfold get_recent_logs, try_except, bind at 1, log_exists; rewrite Hf;
      cbn [negb]; unfold bind at 1, read_log; rewrite Hf;
      unfold bind at 1, slice_of, raise, log_error, bind, emit, ret;
      try (intros H; inversion H; reflexivity).
    (* a JSON string: its characters are the entries *)
    destruct (PyStr.slice_from (- n) (PyStr.chars s0)) as [ | c cs];
      simpl; intros H; inversion H; reflexivity.
  - rewrite Hsoft in Hrun. inversion Hrun as [[Hs' Hw]].
    assert (Ht : (trace w ++ [] = trace w ++ evs)%list).
    { rewrite app_nil_r. rewrite Hw at 1. reflexivity. }
    apply app_inv_head in Ht. now split.
Qed.

(** A decoded value that [get_recent_logs] can print: a dict with the
    keys timestamp, action and result. *)
Definition has_fields (j : json) : bool :=
  match j with
  | JObj fields =>
      match fields_get fields "timestamp", fields_get fields "action",
            fields_get fields "result" with
      | Some _, Some _, Some _ => true
      | _, _, _ => false
      end
  | _ => false
  end.

Lemma format_log_malformed (E : env) (j : json) (w : world) :
  has_fields j = false -> exists e, format_log E j w = (Raise e, w).
Proof.
  unfold has_fields, format_log, bind, item.
  destruct j as [ | b | z | s | items | fields]; intros H;
    try (eexists; reflexivity).
  destruct (fields_get fields "timestamp"); [ | eexists; reflexivity].
  destruct (fields_get fields "action"); [ | eexists; reflexivity].
  destruct (fields_get fields "result"); [discriminate | eexists; reflexivity].
Qed.

Lemma format_logs_malformed (E : env) (recent : list json) (bad : json)
    (w : world) :
  In bad recent -> has_fields bad = false ->
  exists e, format_logs E recent w = (Raise e, w).
Proof.
  intros Hin Hbad. induction recent as [ | j rest IH]; [contradiction | ].
  simpl. unfold bind at 1.
  destruct (format_log_pure E j w) as [[line | e] Hj]; rewrite Hj;
    [ | eexists; reflexivity].
  destruct Hin as [-> | Hin].
  - destruct (format_log_malformed E bad w Hbad) as (e & He). congruence.
  - destruct (IH Hin) as (e & He). unfold bind. rewrite He. eexists; reflexivity.
Qed.

(** X4: one entry without a timestamp, an action or a result among the
    entries [get_recent_logs n] selects, and the whole history is lost:
    the result is the empty string (and one [logging.error] line), not the
    lines of the entries that are well formed. *)
Theorem recent_logs_malformed_entry (E : env) (n : Z) (items : list json)
    (bad : json) (w : world) :
  log_file w = Some (Document (JArr items)) ->
  In bad (PyStr.slice_from (- n) items) ->
  has_fields bad = false ->
  exists msg,
    get_recent_logs E n w
    = (Ret "", logged w [LogError ("failed to read logs: " ++ msg)]).
Proof.
  intros Hf Hin Hbad.
  destruct (format_logs_malformed E _ bad w Hin Hbad) as (e & He).
  exists (exn_msg e).
  unfold get_recent_logs, try_except, bind at 1, log_exists. rewrite Hf.
  cbn [negb]. unfold bind at 1, read_log. rewrite Hf.
  unfold bind at 1, slice_of, ret. unfold bind at 1. rewrite He.
  reflexivity.
Qed.

(** The newest entry has lost its result. *)
Definition log_with_gap : world :=
  World (Some (Document
                 (JArr [entry "2025-01-18T12:00:00" "type_letters" "ab";
                        JObj [("timestamp", JStr "2025-01-18T12:00:07");
                              ("action", JStr "type_text")]])))
        true 0 0 0 [].

Lemma recent_logs_malformed_entry_witness :
  exists msg,
    get_recent_logs always_down 10 log_with_gap
    = (Ret "", logged log_with_gap [LogError ("failed to read logs: " ++ msg)]).
Proof.
  refine (recent_logs_malformed_entry always_down 10 _
            (JObj [("timestamp", JStr "2025-01-18T12:00:07");
                   ("action", JStr "type_text")])
            log_with_gap eq_refl _ eq_refl).
  simpl. right. left. reflexivity.
Defined.

(** ** The log only grows, in the model client and in the loop *)







(** ** What a computation may add to the trace *)

Section AddsOnly.

Variable P : event -> Prop.
Hypothesis P_info : forall msg, P (LogInfo msg).
Hypothesis P_error : forall msg, P (LogError msg).

(** From [w] to [w'] only effects that satisfy [P] have happened. *)
Definition adds_only (w w' : world) : Prop :=
  exists evs, trace w' = (trace w ++ evs)%list /\ Forall P evs.

Lemma adds_only_refl (w : world) : adds_only w w.
Proof. exists []. split; [now rewrite app_nil_r | constructor]. Qed.

Lemma adds_only_trans (w1 w2 w3 : world) :
  adds_only w1 w2 -> adds_only w2 w3 -> adds_only w1 w3.
Proof.
  intros (e1 & T1 & F1) (e2 & T2 & F2). exists (e1 ++ e2)%list. split.
  - now rewrite T2, T1, app_assoc.
  - apply Forall_app. now split.
Qed.

Lemma adds_only_logged (w : world) (evs : list event) :
  Forall P evs -> adds_only w (logged w evs).
Proof. intros H. exists evs. now split. Qed.

Lemma adds_only_emit (e : event) : P e -> keeps adds_only (emit e).
Proof.
  intros He w r w' H. inversion H. apply (adds_only_logged w [e]).
  now constructor.
Qed.

Lemma adds_only_sleep (ms : Z) : P (Sleep ms) -> keeps adds_only (sleep ms).
Proof.
  intros He. unfold sleep. destruct (ms <? 0).
  - apply (keeps_raise _ adds_only_refl).
  - now apply adds_only_emit.
Qed.

Lemma adds_only_quiet {A} (m : M A) :
  (forall w r w', m w = (r, w') -> trace w' = trace w) ->
  keeps adds_only m.
Proof.
  intros H w r w' Hm. exists []. rewrite app_nil_r.
  split; [eapply H; eauto | constructor].
Qed.

Lemma adds_only_now (E : env) : keeps adds_only (now E).
Proof. apply adds_only_quiet. intros w r w' H. now inversion H. Qed.

Lemma adds_only_next_reply (E : env) : keeps adds_only (next_reply E).
Proof. apply adds_only_quiet. intros w r w' H. now inversion H. Qed.

Lemma adds_only_grab (r : region) : P (Grab r) -> keeps adds_only (grab r).
Proof.
  intros He w x w' H. inversion H. exists [Grab r]. split; [reflexivity | ].
  now constructor.
Qed.

Lemma adds_only_save_log (E : env) (action result : string) :
  keeps adds_only (save_log E action result).
Proof.
  intros w r w' H.
  destruct (save_log_run E action result w) as (w2 & Hrun & _ & _ & _ & Hcase).
  rewrite Hrun in H. inversion H; subst.
  destruct (appendable w).
  - destruct Hcase as (_ & _ & HT). eexists. split; [exact HT | ].
    constructor; [apply P_info | constructor].
  - destruct Hcase as (_ & msg & HT). eexists. split; [exact HT | ].
    constructor; [apply P_error | constructor].
Qed.

Lemma adds_only_get_recent_logs (E : env) (n : Z) :
  keeps adds_only (get_recent_logs E n).
Proof.
  intros w r w' H.
  destruct (get_recent_logs_run E n w) as (s & evs & Hrun & Hevs).
  rewrite Hrun in H. inversion H. apply adds_only_logged.
  destruct Hevs as [-> | (_ & msg & ->)]; repeat constructor. apply P_error.
Qed.

End AddsOnly.

(** The primitive steps; [side] shows that an effect is one of those the
    predicate allows. *)
Ltac adds_only_leaf info error side :=
  idtac;
  match goal with
  | |- keeps _ (emit _) => apply adds_only_emit; side
  | |- keeps _ (log_info _) => apply adds_only_emit; side
  | |- keeps _ (log_warning _) => apply adds_only_emit; side
  | |- keeps _ (log_error _) => apply adds_only_emit; side
  | |- keeps _ (sleep _) => apply adds_only_sleep; side
  | |- keeps _ (now _) => apply adds_only_now
  | |- keeps _ (grab _) => apply adds_only_grab; side
  | |- keeps _ (next_reply _) => apply adds_only_next_reply
  | |- keeps _ (get_recent_logs _ _) => apply (adds_only_get_recent_logs _ error)
  | |- keeps _ (save_log _ _ _) => apply (adds_only_save_log _ info error)
  | H : forall x, keeps _ (?f x) |- keeps _ (?f _) => apply H
  | H : forall x y, keeps _ (?f x y) |- keeps _ (?f _ _) => apply H
  | H : keeps _ ?m |- keeps _ ?m => exact H
  end.

(** ** The inputs the model can cause *)

(** The effects [twitter_helper] may have: of the input events only the
    typing of one character and the press and release of the option key;
    never a click, a hotkey or a named key. *)
Definition model_may_cause (e : event) : Prop :=
  match e with
  | Click _ _ | Hotkey _ | Press _ => False
  | Write message => String.length message = 1%nat
  | KeyDown key | KeyUp key => key = "option"
  | _ => True
  end.

Ltac may_cause_steps :=
  keeps_steps (adds_only_refl model_may_cause) (adds_only_trans model_may_cause)
    ltac:(adds_only_leaf (fun _ : string => I) (fun _ : string => I)
            ltac:(exact I || reflexivity)).

Lemma may_cause_type_letters (E : env) (letters : argval) :
  keeps (adds_only model_may_cause) (type_letters E letters).
Proof.
  unfold type_letters, capture_screenshot, press_option, wait_for_load, keystroke.
  may_cause_steps.
Qed.

Lemma may_cause_type_text (txt : argval) :
  keeps (adds_only model_may_cause) (type_text txt).
Proof. unfold type_text, keystroke. may_cause_steps. Qed.

Lemma may_cause_dispatch (E : env) (p : part) :
  keeps (adds_only model_may_cause) (dispatch E p).
Proof.
  pose proof (may_cause_type_letters E) as HL.
  pose proof may_cause_type_text as HT.
  unfold dispatch. may_cause_steps.
Qed.

Lemma may_cause_analyze (E : env) (img : image) :
  keeps (adds_only model_may_cause) (analyze E img).
Proof.
  pose proof (may_cause_dispatch E) as HD.
  unfold analyze, upload_file, send_message, os_remove. may_cause_steps.
Qed.

Lemma may_cause_twitter_helper_from (E : env) (img : image) (retry_delay : Z)
    (fuel : nat) :
  forall max_retries,
    keeps (adds_only model_may_cause)
          (twitter_helper_from E fuel img max_retries retry_delay).
Proof.
  pose proof (may_cause_analyze E img) as HA.
  induction fuel as [ | fuel IH]; intros m;
    rewrite twitter_helper_from_rescue; unfold rescue.
  - may_cause_steps.
  - specialize (IH (m - 1)). may_cause_steps.
Qed.

(** The arguments of the function calls the endpoint sends are strings,
    as the schema declared for the two functions says.  (A list or a
    struct is iterated by [type_text] element by element, so that whole
    strings are written; such values are not covered.) *)
Definition string_arguments (E : env) : Prop :=
  forall (k : nat) (parts : list part) (cleanup : option string)
         (p : part) (fn : function_call) (key : string) (v : argval),
    model_reply E k = Response parts cleanup ->
    In p parts ->
    fn_call p = Some fn ->
    In (key, v) (args fn) ->
    exists s, v = AStr s.

(** X7: the action space is closed.  As long as the arguments of the
    function calls are strings, whatever else the endpoint answers (any
    function names, any argument names and texts, any number of parts,
    any errors), the only input events a call of [twitter_helper] causes
    are the typing of single characters and the press and release of the
    option key: it never clicks, never sends a hotkey and never presses a
    named key. *)
Theorem twitter_helper_closed_inputs (E : env) (img : image)
    (max_retries retry_delay : Z) (w : world) :
  string_arguments E ->
  exists evs,
    trace (snd (twitter_helper E img max_retries retry_delay w))
    = (trace w ++ evs)%list
    /\ Forall model_may_cause evs.
Proof.
  intros _.
  destruct (twitter_helper E img max_retries retry_delay w) as [r w'] eqn:H.
  exact (may_cause_twitter_helper_from E img retry_delay _ max_retries w r w' H).
Qed.

Lemma second_call_refused_strings : string_arguments second_call_refused.
Proof.
  intros k parts cleanup p fn key v Hr Hp Hfn Hin.
  inversion Hr; subst parts cleanup.
  destruct Hp as [<- | [<- | []]]; inversion Hfn; subst fn;
    destruct Hin as [Hkv | []]; inversion Hkv; eexists; reflexivity.
Qed.

Lemma twitter_helper_closed_inputs_witness :
  exists evs,
    trace (snd (twitter_helper second_call_refused
                  (Image 2 (Region 0 0 640 675)) 3 60 fresh_world))
    = (trace fresh_world ++ evs)%list
    /\ Forall model_may_cause evs.
Proof.
  exact (twitter_helper_closed_inputs second_call_refused
           (Image 2 (Region 0 0 640 675)) 3 60 fresh_world
           second_call_refused_strings).
Defined.

(** ** The temporary screenshot *)

Definition is_remove (e : event) : bool :=
  match e with
  | Remove _ => true
  | _ => false
  end.

(** How many files were removed. *)
Definition removes (evs : list event) : nat :=
  List.length (filter is_remove evs).

Definition keeps_file (e : event) : Prop := is_remove e = false.


Lemma removes_none (evs : list event) : Forall keeps_file evs -> removes evs = 0%nat.
Proof.
  unfold removes. induction 1 as [ | e evs He _ IH]; [reflexivity | ].
  simpl. now rewrite He.
Qed.

(** A computation whose removals are counted by its result. *)
Definition counts {A} (f : result A -> nat) (m : M A) : Prop :=
  forall w r w', m w = (r, w') ->
    exists evs, trace w' = (trace w ++ evs)%list /\ removes evs = f r.


Lemma counts_keeps {A} (f : result A -> nat) (m : M A) :
  keeps (adds_only keeps_file) m -> (forall r, f r = 0%nat) -> counts f m.
Proof.
  intros Hm Hf w r w' H. destruct (Hm _ _ _ H) as (e1 & T1 & F1).
  exists e1. split; [exact T1 | ]. now rewrite Hf, (removes_none _ F1).
Qed.








(** ** The action executor, again *)

(** The text that was typed: the messages of the [Write] events, in
    order. *)
Fixpoint written (evs : list event) : string :=
  match evs with
  | [] => ""
  | Write message :: rest => message ++ written rest
  | _ :: rest => written rest
  end.

Definition is_keystroke_step (e : event) : Prop :=
  match e with
  | Write _ | Sleep _ => True
  | _ => False
  end.

Lemma written_typed (cs : list ascii) :
  written (typed cs) = string_of_list_ascii cs.
Proof. induction cs as [ | c cs IH]; simpl; now rewrite ?IH. Qed.

Lemma sleeps_typed (cs : list ascii) :
  sleeps (typed cs) = repeat 100 (List.length cs).
Proof. induction cs as [ | c cs IH]; simpl; now rewrite ?IH. Qed.

Lemma typed_steps (cs : list ascii) : Forall is_keystroke_step (typed cs).
Proof. induction cs as [ | c cs IH]; simpl; repeat constructor. exact IH. Qed.

Lemma length_chars (s : string) : List.length (PyStr.chars s) = String.length s.
Proof. induction s as [ | c s IH]; simpl; now rewrite ?IH. Qed.

(** X9: [type_text] types a string as it is: the characters written, put
    together, are the text (nothing is lowered, trimmed or validated),
    each followed by a pause of 100 ms, and nothing else happens: no
    option key, no grab, no log entry.  The empty string types nothing.
    A value that is not a string (a number, a boolean, None) cannot be
    iterated: [type_text] raises a TypeError before anything is typed. *)
Theorem type_text_types_the_text (txt : argval) (w : world) :
  match txt with
  | AStr s =>
      exists evs,
        type_text txt w = (Ret tt, logged w evs)
        /\ written evs = s
        /\ sleeps evs = repeat 100 (String.length s)
        /\ Forall is_keystroke_step evs
  | _ => exists msg, type_text txt w = (Raise (Exn "TypeError" msg), w)
  end.
Proof.
  destruct txt as [ | b | n | s]; try (eexists; reflexivity).
  exists (typed (PyStr.chars s)). split; [apply for_each_keystroke | ].
  split; [ | split].
  - rewrite written_typed. apply string_of_list_ascii_of_string.
  - now rewrite sleeps_typed, length_chars.
  - apply typed_steps.
Qed.

(** X10: the click of [click_region_center] lands inside the region it is
    given, whenever the region is not empty. *)
Theorem click_inside_region (r : region) (w : world) :
  0 < width r -> 0 < height r ->
  exists x y,
    click_region_center r w = (Ret tt, logged w [Click x y])
    /\ left r <= x < left r + width r
    /\ top r <= y < top r + height r.
Proof.
  intros Hw Hh. exists (left r + width r / 2), (top r + height r / 2).
  split; [reflexivity | ].
  split; Z.to_euclidean_division_equations; lia.
Qed.

Lemma click_inside_region_witness :
  exists x y,
    click_region_center (Region 0 0 640 675) fresh_world
    = (Ret tt, logged fresh_world [Click x y])
    /\ 0 <= x < 0 + 640 /\ 0 <= y < 0 + 675.
Proof.
  exact (click_inside_region (Region 0 0 640 675) fresh_world
           ltac:(reflexivity) ltac:(reflexivity)).
Defined.

(** X11: the region [capture_screenshot] grabs lies inside the primary
    monitor: it starts at the monitor's top-left corner and is neither
    wider nor higher than the monitor; it is not empty as soon as the
    monitor is at least 3 wide and 2 high. *)
Theorem captured_region_fits (E : env) (w : world) :
  0 <= width (monitor E) -> 0 <= height (monitor E) ->
  exists img r w',
    capture_screenshot E w = (Ret (img, r), w')
    /\ captured_from img = r
    /\ top r = top (monitor E) /\ left r = left (monitor E)
    /\ 0 <= width r <= width (monitor E)
    /\ 0 <= height r <= height (monitor E)
    /\ (3 <= width (monitor E) -> 0 < width r)
    /\ (2 <= height (monitor E) -> 0 < height r).
Proof.
  intros HW HH. do 3 eexists. split; [apply capture_screenshot_run | ].
  unfold viewport.
  cbn [captured_from top left width height].
  rewrite int_of_float_times_0_625.
  remember (width (monitor E)) as W eqn:EW.
  remember (height (monitor E)) as H eqn:EH. clear EW EH.
  repeat split; try reflexivity;
    try match goal with |- _ -> _ => intro end;
    Z.to_euclidean_division_equations; lia.
Qed.

Lemma captured_region_fits_witness :
  exists img r w',
    capture_screenshot always_down fresh_world = (Ret (img, r), w')
    /\ captured_from img = r
    /\ top r = 0 /\ left r = 0
    /\ 0 <= width r <= 1920
    /\ 0 <= height r <= 1080
    /\ (3 <= 1920 -> 0 < width r)
    /\ (2 <= 1080 -> 0 < height r).
Proof.
  exact (captured_region_fits always_down fresh_world
           ltac:(discriminate) ltac:(discriminate)).
Defined.

(** ** The model client, again *)

(** The trips to the endpoint one call makes. *)
Lemma twitter_helper_requests (E : env) (img : image) (retry_delay : Z) :
  0 <= retry_delay ->
  forall (n : nat) (max_retries : Z) (w : world),
    Z.to_nat max_retries = n ->
    exists b w',
      twitter_helper E img max_retries retry_delay w = (Ret b, w')
      /\ (requests w < requests w' <= requests w + n + 1)%nat.
Proof.
  intros Hd. induction n as [ | n IH]; intros m w Hm;
    rewrite twitter_helper_unfold; unfold try_except;
    destruct (analyze E img w) as [[b | e] w1] eqn:Ha;
    pose proof (analyze_requests _ _ _ _ _ Ha) as (HR & _ & _).
  - do 2 eexists. split; [reflexivity | lia].
  - rewrite rescue_gives_up.
    + destruct (noted_facts E (exn_msg e) w1) as (HR' & _).
      do 2 eexists. split; [reflexivity | lia].
    + apply andb_false_iff. right. rewrite Z.gtb_ltb. apply Z.ltb_ge. lia.
  - do 2 eexists. split; [reflexivity | lia].
  - destruct (PyStr.contains "429" (exn_msg e) && (m >? 0)) eqn:Hc.
    + rewrite rescue_retries by assumption.
      destruct (IH (m - 1) (backed_off E retry_delay (exn_msg e) w1))
        as (b & w' & -> & HB); [lia | ].
      destruct (backed_off_facts E retry_delay (exn_msg e) w1) as (HR2 & _).
      do 2 eexists. split; [reflexivity | lia].
    + rewrite rescue_gives_up by assumption.
      destruct (noted_facts E (exn_msg e) w1) as (HR' & _).
      do 2 eexists. split; [reflexivity | lia].
Qed.

(** X12: with a back-off that is a length of time, [twitter_helper]
    always returns a boolean, whatever the endpoint answers and whatever
    the responses ask for: no exception of the [try] block reaches the
    caller.  It makes at least one trip to the endpoint and at most
    [max_retries + 1] (one trip when [max_retries] is zero or
    negative). *)
Theorem twitter_helper_returns_a_boolean (E : env) (img : image)
    (max_retries retry_delay : Z) (w : world) :
  0 <= retry_delay ->
  exists b w',
    twitter_helper E img max_retries retry_delay w = (Ret b, w')
    /\ (requests w < requests w' <= requests w + Z.to_nat max_retries + 1)%nat.
Proof.
  intros Hd.
  exact (twitter_helper_requests E img retry_delay Hd _ max_retries w eq_refl).
Qed.

Lemma twitter_helper_returns_a_boolean_witness :
  exists b w',
    twitter_helper second_call_refused (Image 2 (Region 0 0 640 675)) 3 60
      fresh_world
    = (Ret b, w')
    /\ (requests fresh_world < requests w' <= requests fresh_world + 3 + 1)%nat.
Proof.
  exact (twitter_helper_returns_a_boolean second_call_refused
           (Image 2 (Region 0 0 640 675)) 3 60 fresh_world ltac:(discriminate)).
Defined.

(** The world after the warning was logged, before the back-off. *)
Definition warned_off (E : env) (retry_delay : Z) (e : string) (w : world) : world :=
  saved E "warning" (retry_msg retry_delay)
        (logged (noted E e w) [LogWarning (retry_msg retry_delay)]).

Lemma rescue_negative_delay (E : env) (max_retries retry_delay : Z)
    (again : M bool) (e : exn) (w : world) :
  PyStr.contains "429" (exn_msg e) && (max_retries >? 0) = true ->
  retry_delay < 0 ->
  rescue E max_retries retry_delay again e w
  = (Raise (Exn "ValueError" "sleep length must be non-negative"),
     warned_off E retry_delay (exn_msg e) w).
Proof.
  intros H Hd. unfold rescue, bind, log_error, log_warning.
  rewrite emit_run, save_log_saved, H, emit_run, save_log_saved.
  unfold sleep. destruct (1000 * retry_delay <? 0) eqn:Hneg.
  - reflexivity.
  - apply Z.ltb_ge in Hneg. lia.
Qed.

Lemma sleeps_log_lines (m1 m2 : string) (l1 l2 : event) :
  sleeps [l1] = [] -> sleeps [l2] = [] ->
  sleeps [LogError m1; l1; LogWarning m2; l2] = [].
Proof. destruct l1, l2; simpl; congruence. Qed.

Lemma warned_off_facts (E : env) (retry_delay : Z) (e : string) (w : world) :
  requests (warned_off E retry_delay e w) = requests w
  /\ exists evs,
       trace (warned_off E retry_delay e w) = (trace w ++ evs)%list
       /\ sleeps evs = []
       /\ In (LogWarning (retry_msg retry_delay)) evs.
Proof.
  destruct (noted_facts E e w) as (HR & _ & _ & (l1 & HT & Hs1 & _) & _).
  unfold warned_off. rewrite saved_requests. simpl requests. split; [exact HR | ].
  destruct (saved_trace E "warning" (retry_msg retry_delay)
              (logged (noted E e w) [LogWarning (retry_msg retry_delay)]))
    as (l2 & HT2 & Hs2 & _).
  exists [LogError (error_msg e); l1; LogWarning (retry_msg retry_delay); l2].
  split; [ | split].
  - rewrite HT2. simpl trace. rewrite HT, <- !app_assoc. reflexivity.
  - now apply sleeps_log_lines.
  - right. right. now left.
Qed.

(** X13: a negative [retry_delay] makes [twitter_helper] raise.  When an
    attempt fails with the marker "429" in its message and budget is
    left, the [except] block calls [time.sleep(retry_delay)], which
    refuses a negative length: the ValueError leaves [twitter_helper]
    after one trip to the endpoint, with the error and the warning
    already logged. *)
Theorem negative_delay_raises (E : env) (img : image)
    (max_retries retry_delay : Z) (w : world) :
  retry_delay < 0 -> 0 < max_retries ->
  rate_limited (model_reply E (requests w)) = true ->
  exists w' evs,
    twitter_helper E img max_retries retry_delay w
    = (Raise (Exn "ValueError" "sleep length must be non-negative"), w')
    /\ requests w' = S (requests w)
    /\ trace w' = (trace w ++ evs)%list
    /\ sleeps evs = []
    /\ In (LogWarning (retry_msg retry_delay)) evs.
Proof.
  intros Hd Hm Hr. apply rate_limited_error in Hr as [He H429].
  set (e := reply_message (model_reply E (requests w))) in *.
  destruct (analyze_request_error E img w e He) as (pre & Ha & Hs & _).
  rewrite twitter_helper_unfold. unfold try_except. rewrite Ha.
  rewrite rescue_negative_delay; [ | | assumption].
  2: { simpl exn_msg. rewrite H429. simpl. apply Z.gtb_lt. lia. }
  simpl exn_msg.
  destruct (warned_off_facts E retry_delay e (attempted w pre))
    as (HR & evs & HT & Hsl & Hin).
  exists (warned_off E retry_delay e (attempted w pre)), (pre ++ evs)%list.
  split; [reflexivity | ]. split; [exact HR | ]. split; [ | split].
  - rewrite HT. simpl trace. now rewrite <- app_assoc.
  - now rewrite sleeps_app, Hs, Hsl.
  - apply in_or_app. now right.
Qed.

(** A back-off of minus one second. *)
Lemma negative_delay_raises_witness :
  exists w' evs,
    twitter_helper always_limited (Image 2 (Region 0 0 640 675)) 3 (-1)
      fresh_world
    = (Raise (Exn "ValueError" "sleep length must be non-negative"), w')
    /\ requests w' = 1%nat
    /\ trace w' = (trace fresh_world ++ evs)%list
    /\ sleeps evs = []
    /\ In (LogWarning (retry_msg (-1))) evs.
Proof.
  exact (negative_delay_raises always_limited (Image 2 (Region 0 0 640 675))
           3 (-1) fresh_world ltac:(reflexivity) ltac:(reflexivity) eq_refl).
Defined.

(** X14: the rate-limit marker is looked for in the text of any
    exception of the [try] block, not only in the errors of the endpoint.
    Whatever raised it, and whatever the [try] block had already done (the
    actions of the response may have been carried out), an exception
    whose text contains "429" with budget left makes [twitter_helper]
    back off and run the [try] block again. *)
Theorem marker_in_any_exception_retries (E : env) (img : image)
    (max_retries retry_delay : Z) (w w1 : world) (ex : exn) :
  analyze E img w = (Raise ex, w1) ->
  PyStr.contains "429" (exn_msg ex) = true ->
  0 < max_retries -> 0 <= retry_delay ->
  exists w2 evs,
    twitter_helper E img max_retries retry_delay w
    = twitter_helper E img (max_retries - 1) retry_delay w2
    /\ requests w2 = S (requests w)
    /\ trace w2 = (trace w1 ++ evs)%list
    /\ sleeps evs = [1000 * retry_delay]
    /\ existsb is_input evs = false.
Proof.
  intros Ha H429 Hm Hd.
  rewrite twitter_helper_unfold. unfold try_except. rewrite Ha.
  rewrite rescue_retries; [ | | assumption].
  2: { rewrite H429. simpl. apply Z.gtb_lt. lia. }
  destruct (backed_off_facts E retry_delay (exn_msg ex) w1)
    as (HR & _ & _ & (l1 & l2 & HT & Hs12 & Hi12) & _).
  apply analyze_requests in Ha as (HR1 & _).
  do 2 eexists. split; [reflexivity | ].
  split; [congruence | ]. split; [exact HT | ]. split.
  - now apply sleeps_backed_off.
  - simpl in *. destruct (is_input l1), (is_input l2); simpl in *; congruence.
Qed.

(** The response asks to type a comment and the clean-up then fails; the
    name of the temporary file, taken from the clock, happens to contain
    "429". *)
Definition cleanup_fails_at_14_29 : env :=
  sample_env
    (fun _ => Response [call "type_text" "text" "hi"]
                (Some "[Errno 2] No such file: 'temp_screenshot_20250118_142900.jpg'")).

Lemma marker_in_any_exception_retries_witness :
  exists w2 evs,
    twitter_helper cleanup_fails_at_14_29 (Image 2 (Region 0 0 640 675)) 3 60
      fresh_world
    = twitter_helper cleanup_fails_at_14_29 (Image 2 (Region 0 0 640 675))
        (3 - 1) 60 w2
    /\ requests w2 = 1%nat
    /\ trace w2
       = (trace (snd (analyze cleanup_fails_at_14_29
                        (Image 2 (Region 0 0 640 675)) fresh_world))
          ++ evs)%list
    /\ sleeps evs = [1000 * 60]
    /\ existsb is_input evs = false.
Proof.
  refine (marker_in_any_exception_retries cleanup_fails_at_14_29
            (Image 2 (Region 0 0 640 675)) 3 60 fresh_world
            (snd (analyze cleanup_fails_at_14_29 (Image 2 (Region 0 0 640 675))
                    fresh_world))
            (Exn "OSError"
                 "[Errno 2] No such file: 'temp_screenshot_20250118_142900.jpg'")
            _ _ _ _).
  - vm_compute. reflexivity.
  - vm_compute. reflexivity.
  - reflexivity.
  - discriminate.
Defined.

(** The actions of that first attempt have been carried out by the time
    the second attempt starts. *)
Example comment_typed_before_retry :
  written (trace (snd (analyze cleanup_fails_at_14_29
                         (Image 2 (Region 0 0 640 675)) fresh_world)))
  = "hi".
Proof. vm_compute. reflexivity. Qed.

(** [k] rate-limited attempts in a row use up [k] of the budget. *)
Lemma rate_limited_many (E : env) (img : image) (retry_delay : Z) :
  0 <= retry_delay ->
  forall (k : nat) (max_retries : Z) (w : world),
    Z.of_nat k <= max_retries ->
    (forall j, (j < k)%nat ->
               rate_limited (model_reply E (requests w + j)) = true) ->
    exists wk evs,
      twitter_helper E img max_retries retry_delay w
      = twitter_helper E img (max_retries - Z.of_nat k) retry_delay wk
      /\ requests wk = (requests w + k)%nat
      /\ grabs wk = grabs w
      /\ trace wk = (trace w ++ evs)%list
      /\ sleeps evs = repeat (1000 * retry_delay) k
      /\ existsb is_input evs = false.
Proof.
  intros Hd. induction k as [ | k IH]; intros m w Hk Hall.
  - exists w, []. rewrite Z.sub_0_r, Nat.add_0_r, app_nil_r. now repeat split.
  - destruct (rate_limited_step E img m retry_delay w)
      as (w2 & evs & Hrun & HR & HG & HT & Hs & Hi & _); [lia | assumption | | ].
    { specialize (Hall 0%nat). rewrite Nat.add_0_r in Hall. apply Hall. lia. }
    destruct (IH (m - 1) w2) as (wk & evs' & Hrun' & HR' & HG' & HT' & Hs' & Hi').
    { lia. }
    { intros j Hj. rewrite HR.
      replace (S (requests w) + j)%nat with (requests w + S j)%nat by lia.
      apply Hall. lia. }
    exists wk, (evs ++ evs')%list. rewrite Hrun, Hrun'.
    split; [f_equal; lia | ]. split; [lia | ]. split; [congruence | ].
    split; [now rewrite HT', HT, app_assoc | ].
    split; [now rewrite sleeps_app, Hs, Hs' | now apply existsb_app_false].
Qed.

(** X15: the call recovers from rate limiting.  After [k] attempts in a
    row that fail with a rate-limit error, [k] within the budget, a
    response that asks for nothing (one part of text, no function call)
    makes the call return [True]: [k + 1] trips to the endpoint, [k]
    sleeps of [retry_delay] seconds, no input event. *)
Theorem recovers_after_rate_limits (E : env) (img : image)
    (max_retries retry_delay : Z) (w : world) (k : nat) (p : part) :
  0 <= retry_delay ->
  Z.of_nat k <= max_retries ->
  (forall j, (j < k)%nat -> rate_limited (model_reply E (requests w + j)) = true) ->
  model_reply E (requests w + k) = Response [p] None ->
  fn_call p = None ->
  exists w' evs,
    twitter_helper E img max_retries retry_delay w = (Ret true, w')
    /\ requests w' = (requests w + k + 1)%nat
    /\ trace w' = (trace w ++ evs)%list
    /\ sleeps evs = repeat (1000 * retry_delay) k
    /\ existsb is_input evs = false.
Proof.
  intros Hd Hk Hall Hr Hp.
  destruct (rate_limited_many E img retry_delay Hd k max_retries w Hk Hall)
    as (wk & evs & Hrun & HR & _ & HT & Hs & Hi).
  rewrite <- HR in Hr.
  destruct (twitter_helper_one_part E img (max_retries - Z.of_nat k) retry_delay
              wk p (heard p) Hr (fun w0 => dispatch_text_only E p w0 Hp))
    as (pre & Hrun' & Hs' & Hi' & _).
  destruct (heard_quiet p) as (Hsh & Hih & _).
  exists (attempted wk (pre ++ heard p ++ [Remove (temp_path E wk)])),
         (evs ++ pre ++ heard p ++ [Remove (temp_path E wk)])%list.
  rewrite Hrun, Hrun'. split; [reflexivity | ].
  split; [simpl; lia | ]. split; [simpl; now rewrite HT, <- app_assoc | ].
  split.
  - rewrite !sleeps_app, Hs, Hs', Hsh. simpl. now rewrite app_nil_r.
  - repeat apply existsb_app_false; auto.
Qed.

(** Two rate-limit errors, then an answer in words. *)
Definition limited_twice : env :=
  sample_env (fun k => match k with
                       | 0%nat | 1%nat => SendFails "429 Resource has been exhausted"
                       | _ => Response [Part "Nothing to do here." None] None
                       end).

Lemma recovers_after_rate_limits_witness :
  exists w' evs,
    twitter_helper limited_twice (Image 2 (Region 0 0 640 675)) 3 60 fresh_world
    = (Ret true, w')
    /\ requests w' = 3%nat
    /\ trace w' = (trace fresh_world ++ evs)%list
    /\ sleeps evs = [60000; 60000]
    /\ existsb is_input evs = false.
Proof.
  refine (recovers_after_rate_limits limited_twice (Image 2 (Region 0 0 640 675))
            3 60 fresh_world 2 (Part "Nothing to do here." None)
            _ _ _ eq_refl eq_refl).
  - discriminate.
  - discriminate.
  - intros [ | [ | j]] Hj; [reflexivity | reflexivity | lia].
Defined.

(** ** A response that asks for one action *)

Lemma one_part_done (E : env) (img : image) (max_retries retry_delay : Z)
    (w : world) (p : part) (after : world -> world) :
  model_reply E (requests w) = Response [p] None ->
  (forall w0, dispatch E p w0 = (Ret tt, after w0)) ->
  exists pre,
    twitter_helper E img max_retries retry_delay w
    = (Ret true, logged (after (attempted w pre)) [Remove (temp_path E w)])
    /\ sleeps pre = [] /\ filter is_input pre = [].
Proof.
  intros Hr Hp.
  destruct (analyze_response E img w [p] None Hr) as (pre & Ha & Hs & Hi & _).
  exists pre. split; [ | split; [exact Hs | ]].
  - rewrite twitter_helper_unfold. unfold try_except. rewrite Ha.
    simpl for_each. unfold bind. rewrite Hp. unfold ret at 1.
    simpl os_remove. rewrite emit_run. reflexivity.
  - clear - Hi. induction pre as [ | e pre IH]; [reflexivity | ].
    simpl in *. apply orb_false_iff in Hi as [He Hi]. rewrite He. auto.
Qed.

Lemma one_part_failed (E : env) (img : image) (max_retries retry_delay : Z)
    (w : world) (p : part) (ex : exn) (after : world -> world) :
  model_reply E (requests w) = Response [p] None ->
  (forall w0, dispatch E p w0 = (Raise ex, after w0)) ->
  PyStr.contains "429" (exn_msg ex) = false ->
  exists pre,
    twitter_helper E img max_retries retry_delay w
    = (Ret false, noted E (exn_msg ex) (after (attempted w pre)))
    /\ sleeps pre = [] /\ filter is_input pre = [].
Proof.
  intros Hr Hp H429.
  destruct (analyze_response E img w [p] None Hr) as (pre & Ha & Hs & Hi & _).
  exists pre. split; [ | split; [exact Hs | ]].
  - rewrite twitter_helper_unfold. unfold try_except. rewrite Ha.
    simpl for_each. unfold bind. rewrite Hp.
    apply rescue_gives_up. now rewrite H429.
  - clear - Hi. induction pre as [ | e pre IH]; [reflexivity | ].
    simpl in *. apply orb_false_iff in Hi as [He Hi]. rewrite He. auto.
Qed.

Lemma inputs_heard (p : part) : filter is_input (heard p) = [].
Proof. unfold heard. now destruct (String.eqb (text p) ""). Qed.

(** The key events of typing the characters [cs]. *)
Definition keys (cs : list ascii) : list event :=
  map (fun c => Write (PyStr.of_char c)) cs.

Lemma inputs_typed (cs : list ascii) : filter is_input (typed cs) = keys cs.
Proof. induction cs as [ | c cs IH]; simpl; now rewrite ?IH. Qed.

(** What dispatching a well-formed [type_letters] call does. *)
Definition after_type_letters (E : env) (p : part) (s : string) (w : world) : world :=
  saved E "type_letters" s
    (grabbed (logged w (heard p ++ [LogInfo ("executing type_letters with: " ++ s)]))
             (typed (PyStr.chars (PyStr.lower s)) ++ option_tap
              ++ [Grab (viewport E)])).

Lemma dispatch_type_letters (E : env) (p : part) (fn : function_call)
    (s : string) (w : world) :
  fn_call p = Some fn ->
  name fn = "type_letters" ->
  args_get (args fn) "letters" = AStr s ->
  passes_checks (AStr s) = true ->
  dispatch E p w = (Ret tt, after_type_letters E p s w).
Proof.
  intros Hfn Hname Harg Hok.
  assert (Hs : String.eqb s "" = false).
  { destruct s; [discriminate | reflexivity]. }
  assert (Hrun : forall w0,
             type_letters E (AStr s) w0
             = (Ret (Image (S (grabs w0)) (viewport E), viewport E),
                grabbed w0 (typed (PyStr.chars (PyStr.lower s)) ++ option_tap
                            ++ [Grab (viewport E)]))).
  { intros w0. destruct (type_letters_accepts E (AStr s) w0 Hok) as (s' & Hs' & H).
    inversion Hs'; subst s'. exact H. }
  unfold dispatch. rewrite Hfn, Hname, Harg, String.eqb_refl.
  cbv zeta. cbn [truthy arg_str]. rewrite Hs. cbn [negb].
  unfold after_type_letters, heard.
  destruct (String.eqb (text p) ""); cbn [negb app].
  - unfold bind at 1, ret at 1. unfold log_info. rewrite bind_emit.
    unfold bind at 1. rewrite Hrun. apply save_log_saved.
  - unfold log_info. rewrite !bind_emit, logged_logged. cbn [app].
    unfold bind at 1. rewrite Hrun. apply save_log_saved.
Qed.

(** X16: a response that asks for [type_letters] with two or three
    letters: the call returns [True] after one trip to the endpoint; the
    input events are exactly the lowered letters, one key each, then the
    option key down and up; the screen is grabbed once; and the action log
    (when it can be appended to) gets one entry, whose action is
    "type_letters" and whose result is the letters as the model sent them
    (not lowered). *)
Theorem type_letters_action (E : env) (img : image) (max_retries retry_delay : Z)
    (w : world) (p : part) (fn : function_call) (s : string) :
  model_reply E (requests w) = Response [p] None ->
  fn_call p = Some fn ->
  name fn = "type_letters" ->
  args_get (args fn) "letters" = AStr s ->
  two_or_three_letters (AStr s) ->
  exists w' evs,
    twitter_helper E img max_retries retry_delay w = (Ret true, w')
    /\ requests w' = S (requests w)
    /\ grabs w' = S (grabs w)
    /\ trace w' = (trace w ++ evs)%list
    /\ filter is_input evs
       = (keys (PyStr.chars (PyStr.lower s))
          ++ [KeyDown "option"; KeyUp "option"])%list
    /\ match appendable w with
       | Some items =>
           exists t,
             log_file w'
             = Some (Document (JArr (items ++ [entry t "type_letters" s])))
       | None => log_file w' = log_file w
       end.
Proof.
  intros Hr Hfn Hname Harg Hvalid. apply passes_checks_spec in Hvalid.
  destruct (one_part_done E img max_retries retry_delay w p
              (after_type_letters E p s) Hr
              (fun w0 => dispatch_type_letters E p fn s w0 Hfn Hname Harg Hvalid))
    as (pre & Hrun & _ & Hi).
  set (w0 := attempted w pre) in *.
  set (wg := grabbed (logged w0 (heard p ++ [LogInfo ("executing type_letters with: " ++ s)]))
                     (typed (PyStr.chars (PyStr.lower s)) ++ option_tap
                      ++ [Grab (viewport E)])).
  destruct (saved_trace E "type_letters" s wg) as (line & HT & _ & Hline & _).
  eexists. eexists (pre ++ _)%list. split; [exact Hrun | ].
  unfold after_type_letters. fold wg.
  cbn [requests grabs trace log_file logged].
  rewrite saved_requests, saved_grabs, saved_log_file, HT.
  split; [reflexivity | ]. split; [reflexivity | ]. split; [ | split].
  - unfold wg, grabbed, logged, w0, attempted. cbn [trace].
    rewrite <- !app_assoc. reflexivity.
  - rewrite !filter_app, Hi, inputs_heard, inputs_typed. simpl.
    rewrite Hline. reflexivity.
  - change (appendable wg) with (appendable w).
    destruct (appendable w); [eexists; reflexivity | reflexivity].
Qed.

Lemma type_letters_action_witness :
  exists w' evs,
    twitter_helper
      (sample_env (fun _ => Response [call "type_letters" "letters" "aB"] None))
      (Image 2 (Region 0 0 640 675)) 3 60 fresh_world
    = (Ret true, w')
    /\ requests w' = 1%nat
    /\ grabs w' = 1%nat
    /\ trace w' = (trace fresh_world ++ evs)%list
    /\ filter is_input evs
       = (keys (PyStr.chars (PyStr.lower "aB"))
          ++ [KeyDown "option"; KeyUp "option"])%list
    /\ exists t,
         log_file w'
         = Some (Document (JArr ([] ++ [entry t "type_letters" "aB"]))).
Proof.
  refine (type_letters_action
            (sample_env (fun _ => Response [call "type_letters" "letters" "aB"] None))
            (Image 2 (Region 0 0 640 675)) 3 60 fresh_world
            (call "type_letters" "letters" "aB")
            (FunctionCall "type_letters" [("letters", AStr "aB")]) "aB"
            eq_refl eq_refl eq_refl eq_refl _).
  exists "aB". split; [reflexivity | split; [simpl; lia | ]].
  repeat constructor.
Defined.

(** What dispatching a [type_text] call with a text does. *)
Definition after_type_text (E : env) (p : part) (s : string) (w : world) : world :=
  saved E "type_text" s
    (logged w (heard p ++ [LogInfo ("executing type_text with: " ++ s)]
               ++ typed (PyStr.chars s))).

Lemma dispatch_type_text (E : env) (p : part) (fn : function_call)
    (s : string) (w : world) :
  fn_call p = Some fn ->
  name fn = "type_text" ->
  args_get (args fn) "text" = AStr s ->
  s <> "" ->
  dispatch E p w = (Ret tt, after_type_text E p s w).
Proof.
  intros Hfn Hname Harg Hne.
  assert (Hs : String.eqb s "" = false) by now apply String.eqb_neq.
  unfold dispatch. rewrite Hfn, Hname, Harg.
  change (String.eqb "type_text" "type_letters") with false.
  rewrite String.eqb_refl.
  cbv zeta. cbn [truthy arg_str]. rewrite Hs. cbn [negb].
  unfold after_type_text, heard, type_text.
  destruct (String.eqb (text p) ""); cbn [negb app].
  - unfold bind at 1, ret at 1. unfold log_info. rewrite bind_emit.
    unfold bind at 1. rewrite for_each_keystroke, logged_logged.
    apply save_log_saved.
  - unfold log_info. rewrite !bind_emit, logged_logged.
    unfold bind at 1. rewrite for_each_keystroke, logged_logged.
    apply save_log_saved.
Qed.

(** X17: a response that asks for [type_text] with a text that is not
    empty: the call returns [True] after one trip to the endpoint; the
    input events are exactly the characters of the text as the model sent
    them, one key each, every one followed by a pause of 100 ms; the
    option key is not touched and the screen is not grabbed; and the
    action log (when it can be appended to) gets one entry, whose action
    is "type_text" and whose result is the text. *)
Theorem type_text_action (E : env) (img : image) (max_retries retry_delay : Z)
    (w : world) (p : part) (fn : function_call) (s : string) :
  model_reply E (requests w) = Response [p] None ->
  fn_call p = Some fn ->
  name fn = "type_text" ->
  args_get (args fn) "text" = AStr s ->
  s <> "" ->
  exists w' evs,
    twitter_helper E img max_retries retry_delay w = (Ret true, w')
    /\ requests w' = S (requests w)
    /\ grabs w' = grabs w
    /\ trace w' = (trace w ++ evs)%list
    /\ filter is_input evs = keys (PyStr.chars s)
    /\ sleeps evs = repeat 100 (String.length s)
    /\ match appendable w with
       | Some items =>
           exists t,
             log_file w'
             = Some (Document (JArr (items ++ [entry t "type_text" s])))
       | None => log_file w' = log_file w
       end.
Proof.
  intros Hr Hfn Hname Harg Hne.
  destruct (one_part_done E img max_retries retry_delay w p
              (after_type_text E p s) Hr
              (fun w0 => dispatch_type_text E p fn s w0 Hfn Hname Harg Hne))
    as (pre & Hrun & Hsl & Hi).
  set (w0 := attempted w pre) in *.
  set (wt := logged w0 (heard p ++ [LogInfo ("executing type_text with: " ++ s)]
                        ++ typed (PyStr.chars s))).
  destruct (saved_trace E "type_text" s wt) as (line & HT & Hls & Hline & _).
  destruct (heard_quiet p) as (Hhs & _).
  eexists. eexists (pre ++ _)%list. split; [exact Hrun | ].
  unfold after_type_text. fold wt.
  cbn [requests grabs trace log_file logged].
  rewrite saved_requests, saved_grabs, saved_log_file, HT.
  split; [reflexivity | ]. split; [reflexivity | ]. split; [ | split; [ | split]].
  - unfold wt, logged, w0, attempted. cbn [trace].
    rewrite <- !app_assoc. reflexivity.
  - rewrite !filter_app, Hi, inputs_heard, inputs_typed. simpl.
    rewrite Hline. now rewrite app_nil_r.
  - rewrite !sleeps_app, Hsl, Hhs, sleeps_typed, length_chars, Hls.
    simpl. now rewrite app_nil_r.
  - change (appendable wt) with (appendable w).
    destruct (appendable w); [eexists; reflexivity | reflexivity].
Qed.

Lemma type_text_action_witness :
  exists w' evs,
    twitter_helper
      (sample_env (fun _ => Response [call "type_text" "text" "Nice!"] None))
      (Image 2 (Region 0 0 640 675)) 3 60 fresh_world
    = (Ret true, w')
    /\ requests w' = 1%nat
    /\ grabs w' = 0%nat
    /\ trace w' = (trace fresh_world ++ evs)%list
    /\ filter is_input evs = keys (PyStr.chars "Nice!")
    /\ sleeps evs = repeat 100 5
    /\ exists t,
         log_file w'
         = Some (Document (JArr ([] ++ [entry t "type_text" "Nice!"]))).
Proof.
  refine (type_text_action
            (sample_env (fun _ => Response [call "type_text" "text" "Nice!"] None))
            (Image 2 (Region 0 0 640 675)) 3 60 fresh_world
            (call "type_text" "text" "Nice!")
            (FunctionCall "type_text" [("text", AStr "Nice!")]) "Nice!"
            eq_refl eq_refl eq_refl eq_refl _).
  discriminate.
Defined.

(** ** A call the model gets wrong *)

(** The three complaints of [type_letters]. *)
Definition complaints : list string :=
  ["Input must be a string"; "Must provide 2-3 letters";
   "Input must contain only letters"].

Lemma type_letters_complains (E : env) (v : argval) :
  passes_checks v = false ->
  exists msg,
    In msg complaints
    /\ PyStr.contains "429" msg = false
    /\ forall w, type_letters E v w = (Raise (Exn "ValueError" msg), w).
Proof.
  unfold complaints.
  destruct v as [ | b | n | s]; simpl; intros H;
    try (exists "Input must be a string";
         split; [now left | split; [reflexivity | reflexivity]]).
  unfold type_letters.
  destruct ((2 <=? PyStr.len s) && (PyStr.len s <=? 3)); simpl in *.
  - rewrite H. simpl. exists "Input must contain only letters".
    split; [right; right; now left | split; reflexivity].
  - exists "Must provide 2-3 letters".
    split; [right; now left | split; reflexivity].
Qed.

(** What dispatching an ill-formed [type_letters] call leaves behind. *)
Definition after_refusal (p : part) (v : argval) (w : world) : world :=
  logged w (heard p ++ [LogInfo ("executing type_letters with: " ++ arg_str v)]).

Lemma dispatch_refused (E : env) (p : part) (fn : function_call) (msg : string) :
  fn_call p = Some fn ->
  name fn = "type_letters" ->
  truthy (args_get (args fn) "letters") = true ->
  (forall w, type_letters E (args_get (args fn) "letters") w
             = (Raise (Exn "ValueError" msg), w)) ->
  forall w,
    dispatch E p w
    = (Raise (Exn "ValueError" msg),
       after_refusal p (args_get (args fn) "letters") w).
Proof.
  intros Hfn Hname Htruthy Hrun w.
  unfold dispatch. rewrite Hfn, Hname, String.eqb_refl.
  cbv zeta. rewrite Htruthy.
  unfold after_refusal, heard.
  destruct (String.eqb (text p) ""); cbn [negb app].
  - unfold bind at 1, ret at 1. unfold log_info. rewrite bind_emit.
    unfold bind at 1. rewrite Hrun. reflexivity.
  - unfold log_info. rewrite !bind_emit, logged_logged.
    unfold bind at 1. rewrite Hrun. reflexivity.
Qed.

(** X18: a [type_letters] call whose argument is not two or three letters
    (one letter, four, a digit among them, a number, [True]) fails the
    whole call: [twitter_helper] returns [False] after one trip to the
    endpoint, whatever [max_retries] is, since none of the three
    complaints of [type_letters] carries the rate-limit marker.  Nothing
    is typed, no key is pressed, there is no pause and no grab; the
    complaint is logged as an error. *)
Theorem ill_formed_letters_fail_the_call (E : env) (img : image)
    (max_retries retry_delay : Z) (w : world) (p : part) (fn : function_call) :
  model_reply E (requests w) = Response [p] None ->
  fn_call p = Some fn ->
  name fn = "type_letters" ->
  truthy (args_get (args fn) "letters") = true ->
  ~ two_or_three_letters (args_get (args fn) "letters") ->
  exists w' evs msg,
    twitter_helper E img max_retries retry_delay w = (Ret false, w')
    /\ requests w' = S (requests w)
    /\ grabs w' = grabs w
    /\ trace w' = (trace w ++ evs)%list
    /\ filter is_input evs = []
    /\ sleeps evs = []
    /\ In msg complaints
    /\ In (LogError ("error analyzing screenshot: " ++ msg)) evs.
Proof.
  intros Hr Hfn Hname Htruthy Hbad.
  assert (Hno : passes_checks (args_get (args fn) "letters") = false).
  { destruct (passes_checks (args_get (args fn) "letters")) eqn:Hc; [ | reflexivity].
    apply passes_checks_spec in Hc. contradiction. }
  destruct (type_letters_complains E _ Hno) as (msg & Hin & H429 & Hraise).
  destruct (one_part_failed E img max_retries retry_delay w p
              (Exn "ValueError" msg)
              (after_refusal p (args_get (args fn) "letters")) Hr
              (dispatch_refused E p fn msg Hfn Hname Htruthy Hraise) H429)
    as (pre & Hrun & Hsl & Hi).
  cbn [exn_msg] in Hrun.
  set (w0 := after_refusal p (args_get (args fn) "letters") (attempted w pre)) in *.
  destruct (noted_facts E msg w0) as (HR & HG & _ & (line & HT & Hls & Hline & _) & _).
  destruct (heard_quiet p) as (Hhs & _).
  exists (noted E msg w0). eexists (pre ++ _)%list. exists msg.
  split; [exact Hrun | ].
  rewrite HR, HG, HT.
  split; [reflexivity | ]. split; [reflexivity | ]. split; [ | split; [ | split; [ | split]]].
  - unfold w0, after_refusal, logged, attempted. cbn [trace].
    rewrite <- !app_assoc. reflexivity.
  - rewrite !filter_app, Hi, inputs_heard. simpl. now rewrite Hline.
  - rewrite !sleeps_app, Hsl, Hhs. simpl.
    destruct line; simpl in Hls; congruence.
  - exact Hin.
  - apply in_or_app. right. apply in_or_app. right. apply in_or_app. right.
    now left.
Qed.

Lemma ill_formed_letters_fail_the_call_witness :
  exists w' evs msg,
    twitter_helper
      (sample_env (fun _ => Response [call "type_letters" "letters" "a1"] None))
      (Image 2 (Region 0 0 640 675)) 3 60 fresh_world
    = (Ret false, w')
    /\ requests w' = 1%nat
    /\ grabs w' = 0%nat
    /\ trace w' = (trace fresh_world ++ evs)%list
    /\ filter is_input evs = []
    /\ sleeps evs = []
    /\ In msg complaints
    /\ In (LogError ("error analyzing screenshot: " ++ msg)) evs.
Proof.
  refine (ill_formed_letters_fail_the_call
            (sample_env (fun _ => Response [call "type_letters" "letters" "a1"] None))
            (Image 2 (Region 0 0 640 675)) 3 60 fresh_world
            (call "type_letters" "letters" "a1")
            (FunctionCall "type_letters" [("letters", AStr "a1")])
            eq_refl eq_refl eq_refl eq_refl _).
  intros H. apply passes_checks_spec in H. discriminate.
Defined.

(** ** What the model is told *)

(** The [try] block after a response has come back: the parts are
    dispatched and the temporary file is removed. *)
Definition act_on (E : env) (parts : list part) (cleanup : option string)
    (path : string) : M bool :=
  for_each parts (dispatch E) ;;
  os_remove path (Response parts cleanup) ;;
  ret true.

Lemma analyze_prompt (E : env) (img : image) (w : world)
    (es : list (string * string * string))
    (parts : list part) (cleanup : option string) :
  log_file w = Some (Document (JArr (map entry_of es))) ->
  model_reply E (requests w) = Response parts cleanup ->
  analyze E img w
  = act_on E parts cleanup (temp_path E w)
      (attempted w
         [SaveImage (temp_path E w) img;
          Upload (temp_path E w);
          SendMessage
            (build_context E
               (PyStr.join newline
                  (map line_of (last_n (Nat.min 10 (List.length es)) es))))
            (temp_path E w)]).
Proof.
  intros Hf Hr. rewrite analyze_split, Hr. unfold after_reply.
  unfold bind at 1. simpl upload_file. rewrite emit_run, attempted_logged.
  unfold bind at 1.
  rewrite (get_recent_logs_positive E 10 es) by (lia || exact Hf).
  replace (Z.to_nat (Z.min 10 (Z.of_nat (List.length es))))
    with (Nat.min 10 (List.length es)) by lia.
  unfold bind at 1, send_message. unfold bind at 1.
  rewrite emit_run, attempted_logged. unfold ret at 1. reflexivity.
Qed.

Lemma may_cause_act_or_rescue (E : env) (img : image)
    (max_retries retry_delay : Z) (parts : list part) (cleanup : option string)
    (path : string) :
  keeps (adds_only model_may_cause)
        (try_except (act_on E parts cleanup path)
           (rescue E max_retries retry_delay
              (twitter_helper E img (max_retries - 1) retry_delay))).
Proof.
  pose proof (may_cause_dispatch E) as HD.
  assert (HT : keeps (adds_only model_may_cause)
                 (twitter_helper E img (max_retries - 1) retry_delay))
    by apply may_cause_twitter_helper_from.
  unfold act_on, rescue, os_remove. may_cause_steps.
Qed.

(** X19: the model is told what was done last.  When the action log holds
    well-formed entries and the endpoint answers with a response, a call
    of [twitter_helper] starts with exactly three effects: the image is
    saved to the temporary file, that file is uploaded, and one message is
    sent with it, whose text is the prompt built around the lines of the
    last ten entries of the log (all of them when there are fewer),
    oldest first. *)
Theorem prompt_carries_recent_actions (E : env) (img : image)
    (max_retries retry_delay : Z) (w : world)
    (es : list (string * string * string))
    (parts : list part) (cleanup : option string) :
  log_file w = Some (Document (JArr (map entry_of es))) ->
  model_reply E (requests w) = Response parts cleanup ->
  exists older recent evs,
    es = (older ++ recent)%list
    /\ List.length recent = Nat.min 10 (List.length es)
    /\ trace (snd (twitter_helper E img max_retries retry_delay w))
       = (trace w
          ++ [SaveImage (temp_path E w) img;
              Upload (temp_path E w);
              SendMessage
                (build_context E (PyStr.join newline (map line_of recent)))
                (temp_path E w)]
          ++ evs)%list.
Proof.
  intros Hf Hr.
  destruct (last_n_suffix (Nat.min 10 (List.length es)) es)
    as (older & Hes & Hlen); [lia | ].
  exists older, (last_n (Nat.min 10 (List.length es)) es).
  rewrite twitter_helper_unfold. unfold try_except.
  rewrite (analyze_prompt E img w es parts cleanup Hf Hr).
  match goal with
  | |- context [act_on E parts cleanup ?path ?w2] =>
      pose proof (may_cause_act_or_rescue E img max_retries retry_delay
                    parts cleanup path w2) as Hk;
      unfold try_except in Hk;
      destruct (act_on E parts cleanup path w2) as [[b | e] w3]
  end.
  - destruct (Hk _ _ eq_refl) as (evs & HT & _).
    exists evs. split; [exact Hes | split; [exact Hlen | ]].
    cbn [snd]. rewrite HT. cbn [trace attempted]. now rewrite <- app_assoc.
  - destruct (rescue E max_retries retry_delay
                (twitter_helper E img (max_retries - 1) retry_delay) e w3)
      as [r w'] eqn:Hres.
    destruct (Hk _ _ eq_refl) as (evs & HT & _).
    exists evs. split; [exact Hes | split; [exact Hlen | ]].
    cbn [snd]. rewrite HT. cbn [trace attempted]. now rewrite <- app_assoc.
Qed.

Lemma prompt_carries_recent_actions_witness :
  exists older recent evs,
    two_entries = (older ++ recent)%list
    /\ List.length recent = 2%nat
    /\ trace (snd (twitter_helper asks_for_nothing (Image 2 (Region 0 0 640 675)) 3 60
                     (world_with_log two_entries)))
       = (trace (world_with_log two_entries)
          ++ [SaveImage (temp_path asks_for_nothing (world_with_log two_entries))
                        (Image 2 (Region 0 0 640 675));
              Upload (temp_path asks_for_nothing (world_with_log two_entries));
              SendMessage
                (build_context asks_for_nothing
                   (PyStr.join newline (map line_of recent)))
                (temp_path asks_for_nothing (world_with_log two_entries))]
          ++ evs)%list.
Proof.
  exact (prompt_carries_recent_actions asks_for_nothing
           (Image 2 (Region 0 0 640 675)) 3 60 (world_with_log two_entries)
           two_entries [call "type_text" "text" ""] None eq_refl eq_refl).
Defined.

(** ** The loop keeps going *)

Lemma framed_save_screenshot (E : env) (img : image) :
  framed (save_screenshot E img).
Proof. unfold save_screenshot. framed_steps. Qed.

Lemma framed_bootstrap (E : env) : framed (bootstrap E).
Proof.
  pose proof (framed_save_screenshot E) as HS.
  unfold bootstrap, click_region_center, navigate_chrome. framed_steps.
Qed.

(** What a turn does after [twitter_helper] costs no trip to the endpoint. *)
Lemma turn_requests (E : env) (img : image) (w w1 w' : world) (ok : bool)
    (r : result image) :
  twitter_helper E img 3 60 w = (Ret ok, w1) ->
  turn E img w = (r, w') ->
  requests w' = requests w1.
Proof.
  intros Hrun Ht. unfold turn in Ht. unfold bind at 1 in Ht. rewrite Hrun in Ht.
  pose proof (framed_save_screenshot E) as HS.
  destruct ok; cbn [negb] in Ht.
  - match type of Ht with
    | ?m w1 = _ => assert (F : framed m) by framed_steps
    end.
    exact (frame_requests _ _ (F _ _ _ Ht)).
  - match type of Ht with
    | ?m w1 = _ => assert (F : framed m) by framed_steps
    end.
    exact (frame_requests _ _ (F _ _ _ Ht)).
Qed.

Lemma upto_requests (E : env) (n : nat) (w : world) :
  exists img w',
    upto E n w = (Ret img, w')
    /\ (requests w + n <= requests w' <= requests w + 4 * n)%nat.
Proof.
  induction n as [ | n (img & wn & Hn & Hle)].
  - destruct (bootstrap_run E w) as (img & w' & Hb & _).
    exists img, w'. unfold upto, bind. rewrite Hb. simpl ret.
    split; [reflexivity | ].
    rewrite (frame_requests _ _ (framed_bootstrap E _ _ _ Hb)). lia.
  - destruct (turn_run E img wn) as (ok & w1 & img' & w' & Hrun & Ht & _).
    destruct (twitter_helper_requests E img 60 ltac:(lia) 3 3 wn eq_refl)
      as (ok' & w1' & Hrun' & HR).
    rewrite Hrun in Hrun'. inversion Hrun'; subst ok' w1'.
    exists img', w'. rewrite upto_S. unfold bind. rewrite Hn.
    split; [exact Ht | ].
    rewrite (turn_requests E img wn w1 w' ok _ Hrun Ht). lia.
Qed.

(** X20: the loop cannot be stopped by the endpoint or by the model.
    Whatever the endpoint answers and whatever the responses ask for, the
    program gets through its start-up and through any number [n] of turns
    of its loop without an exception; the start-up makes no trip to the
    endpoint, and every turn makes at least one and at most four (the
    first attempt and three retries). *)
Theorem main_keeps_going (E : env) (n : nat) (w : world) :
  exists img w',
    main E n w = (Ret img, w')
    /\ (requests w + n <= requests w' <= requests w + 4 * n)%nat.
Proof.
  destruct (upto_requests E n w) as (img & w' & H & HR).
  exists img, w'. split; [ | exact HR].
  rewrite main_upto. exact H.
Qed.

(** ** The log formatter

    [BlobTruncatingFormatter.format] rewrites the record it is given and
    hands it to [logging.Formatter.format].  A record has a message and
    arguments; either may hold a [str] or some other object, and the
    arguments are a tuple or not ([None], a dict). *)

Inductive field : Type :=
| Text (s : string)
| Object (id : nat).

Record log_record : Type := LogRecord {
  record_msg : field;
  record_args : option (list field)
}.

Definition blob_marker : string := "Blob(data=".

(** [s.split(sep)[0]] for a separator that is not empty: what stands
    before the first [sep] in [s], and all of [s] when there is none. *)
Fixpoint split_head (sep s : string) : string :=
  if String.prefix sep s then ""
  else match s with
       | EmptyString => ""
       | String c rest => String c (split_head sep rest)
       end.

(** [s.split("Blob(data=")[0] + "Blob(data=<truncated>)"] *)
Definition truncate_blob (s : string) : string :=
  split_head blob_marker s ++ "Blob(data=<truncated>)".

(** The body of the loop over the arguments. *)
Definition truncate_arg (v : field) : field :=
  match v with
  | Text s => if PyStr.contains blob_marker s then Text (truncate_blob s) else v
  | Object _ => v
  end.

(** The [elif] branch. *)
Definition truncate_args (r : log_record) : log_record :=
  match record_args r with
  | Some items => LogRecord (record_msg r) (Some (map truncate_arg items))
  | None => r
  end.

(** The record after the [try] block.  Nothing in the block can raise on
    these values, so the [except] branch is never taken. *)
Definition truncated (r : log_record) : log_record :=
  match record_msg r with
  | Text s =>
      if PyStr.contains blob_marker s
      then LogRecord (Text (truncate_blob s)) (record_args r)
      else truncate_args r
  | Object _ => truncate_args r
  end.

Section Formatter.

(** [logging.Formatter.format], the method of the base class. *)
Variable super_format : log_record -> string.

Definition format (r : log_record) : string :=
  super_format (truncated r).

End Formatter.

(** *** Searching a string *)

Lemma contains_cons (sep : string) (c : ascii) (rest : string) :
  PyStr.contains sep (String c rest)
  = if String.prefix sep (String c rest) then true else PyStr.contains sep rest.
Proof. reflexivity. Qed.

Lemma contains_nil (sep : string) :
  PyStr.contains sep "" = String.prefix sep "".
Proof. cbn [PyStr.contains]. now destruct (String.prefix sep ""). Qed.

Lemma split_head_cons (sep : string) (c : ascii) (rest : string) :
  split_head sep (String c rest)
  = if String.prefix sep (String c rest) then ""
    else String c (split_head sep rest).
Proof. reflexivity. Qed.

Lemma split_head_nil (sep : string) : split_head sep "" = "".
Proof. cbn [split_head]. now destruct (String.prefix sep ""). Qed.

Lemma prefix_nil (sep : string) : sep <> "" -> String.prefix sep "" = false.
Proof. destruct sep; [contradiction | reflexivity]. Qed.

Lemma str_app_assoc (a b c : string) : ((a ++ b) ++ c = a ++ (b ++ c))%string.
Proof. induction a as [ | x a IH]; simpl; [reflexivity | now rewrite IH]. Qed.

Lemma str_length_app (a b : string) :
  String.length (a ++ b) = (String.length a + String.length b)%nat.
Proof. induction a as [ | x a IH]; simpl; [reflexivity | now rewrite IH]. Qed.

Lemma prefix_self_app (sep t : string) : String.prefix sep (sep ++ t) = true.
Proof.
  induction sep as [ | a sep IH]; simpl.
  - now destruct t.
  - destruct (ascii_dec a a); [exact IH | contradiction].
Qed.

Lemma prefix_true (sep x : string) :
  String.prefix sep x = true -> exists rest, x = (sep ++ rest)%string.
Proof.
  revert x. induction sep as [ | a sep IH]; intros x H.
  - now exists x.
  - destruct x as [ | b x]; simpl in H; [discriminate | ].
    destruct (ascii_dec a b) as [-> | ]; [ | discriminate].
    destruct (IH x H) as (rest & ->). now exists rest.
Qed.

Lemma prefix_app (sep x t : string) :
  String.prefix sep x = true -> String.prefix sep (x ++ t) = true.
Proof.
  intros H. destruct (prefix_true sep x H) as (rest & ->).
  rewrite str_app_assoc. apply prefix_self_app.
Qed.

(** Whether [sep] starts a string is decided by its first [length sep]
    characters. *)
Lemma prefix_long (sep x t t' : string) :
  (String.length sep <= String.length x)%nat ->
  String.prefix sep (x ++ t) = String.prefix sep (x ++ t').
Proof.
  revert x. induction sep as [ | a sep IH]; intros x H.
  - now destruct (x ++ t)%string, (x ++ t')%string.
  - destruct x as [ | b x]; simpl in H; [lia | ]. simpl.
    destruct (ascii_dec a b); [apply IH; lia | reflexivity].
Qed.

Lemma contains_prefix (sep x : string) :
  String.prefix sep x = true -> PyStr.contains sep x = true.
Proof. intros H. destruct x; cbn [PyStr.contains]; now rewrite H. Qed.

Lemma contains_found (sep u t : string) :
  PyStr.contains sep (u ++ sep ++ t) = true.
Proof.
  induction u as [ | c u IH].
  - cbn [append]. apply contains_prefix, prefix_self_app.
  - cbn [append]. rewrite contains_cons.
    now destruct (String.prefix sep (String c (u ++ sep ++ t))).
Qed.

Lemma split_head_at (sep x : string) :
  String.prefix sep x = true -> split_head sep x = "".
Proof. intros H. destruct x; cbn [split_head]; now rewrite H. Qed.

(** What [split] gives first is a prefix of the string. *)
Lemma split_head_prefix (sep s : string) :
  exists tail, s = (split_head sep s ++ tail)%string.
Proof.
  induction s as [ | c s (tail & IH)].
  - exists "". now rewrite split_head_nil.
  - rewrite split_head_cons. destruct (String.prefix sep (String c s)).
    + now exists (String c s).
    + exists tail. cbn [append]. now rewrite <- IH.
Qed.

(** When the separator occurs, it stands right after that prefix. *)
Lemma split_head_found (sep s : string) :
  PyStr.contains sep s = true ->
  exists rest, s = (split_head sep s ++ sep ++ rest)%string.
Proof.
  induction s as [ | c s IH]; intros H.
  - rewrite contains_nil in H. destruct sep; [now exists "" | discriminate].
  - rewrite contains_cons in H. rewrite split_head_cons.
    destruct (String.prefix sep (String c s)) eqn:Hp.
    + apply prefix_true in Hp as (rest & ->). now exists rest.
    + destruct (IH H) as (rest & Hs). exists rest. cbn [append]. now rewrite <- Hs.
Qed.

(** The separator does not occur in that prefix: the occurrence found is
    the first one. *)
Lemma split_head_clean (sep s : string) :
  sep <> "" -> PyStr.contains sep (split_head sep s) = false.
Proof.
  intros Hsep. induction s as [ | c s IH].
  - rewrite split_head_nil, contains_nil. now apply prefix_nil.
  - rewrite split_head_cons. destruct (String.prefix sep (String c s)) eqn:Hp.
    + rewrite contains_nil. now apply prefix_nil.
    + rewrite contains_cons.
      destruct (String.prefix sep (String c (split_head sep s))) eqn:Hq; [ | exact IH].
      destruct (split_head_prefix sep s) as (tail & Hs).
      apply (prefix_app _ _ tail) in Hq. cbn [append] in Hq.
      rewrite <- Hs in Hq. congruence.
Qed.

(** Cutting again at the separator that was put back cuts at the same
    place. *)
Lemma split_head_again (sep s t : string) :
  PyStr.contains sep s = true ->
  split_head sep (split_head sep s ++ sep ++ t) = split_head sep s.
Proof.
  induction s as [ | c s IH]; intros H.
  - rewrite contains_nil in H. destruct sep; [ | discriminate].
    apply split_head_at. now destruct (split_head "" "" ++ "" ++ t)%string.
  - rewrite contains_cons in H. rewrite split_head_cons.
    destruct (String.prefix sep (String c s)) eqn:Hp.
    + cbn [append]. apply split_head_at, prefix_self_app.
    + specialize (IH H). destruct (split_head_found sep s H) as (rest & Hs).
      cbn [append]. rewrite split_head_cons.
      assert (Hq : String.prefix sep (String c (split_head sep s ++ sep ++ t))
                   = false).
      { rewrite <- Hp. rewrite Hs at 2.
        rewrite <- !str_app_assoc.
        apply (prefix_long sep (String c (split_head sep s ++ sep)) t rest).
        cbn [String.length]. rewrite str_length_app. lia. }
      now rewrite Hq, IH.
Qed.

Lemma truncate_blob_marked (s : string) :
  truncate_blob s = (split_head blob_marker s ++ blob_marker ++ "<truncated>)")%string.
Proof. reflexivity. Qed.

Lemma truncate_blob_again (s : string) :
  PyStr.contains blob_marker s = true ->
  PyStr.contains blob_marker (truncate_blob s) = true
  /\ truncate_blob (truncate_blob s) = truncate_blob s.
Proof.
  intros H. rewrite !truncate_blob_marked. split.
  - apply contains_found.
  - now rewrite split_head_again.
Qed.

Lemma truncate_arg_again (v : field) :
  truncate_arg (truncate_arg v) = truncate_arg v.
Proof.
  destruct v as [s | id]; [ | reflexivity]. unfold truncate_arg.
  destruct (PyStr.contains blob_marker s) eqn:H.
  - destruct (truncate_blob_again s H) as (-> & ->). reflexivity.
  - now rewrite H.
Qed.

Lemma truncate_args_again (r : log_record) :
  truncate_args (truncate_args r) = truncate_args r.
Proof.
  unfold truncate_args. destruct r as [m [items | ]]; cbn [record_args record_msg].
  - rewrite map_map. do 2 f_equal. apply map_ext. intros v. apply truncate_arg_again.
  - reflexivity.
Qed.

Lemma truncate_args_msg (r : log_record) :
  record_msg (truncate_args r) = record_msg r.
Proof. unfold truncate_args. now destruct (record_args r). Qed.

Lemma truncated_again (r : log_record) : truncated (truncated r) = truncated r.
Proof.
  destruct r as [[s | id] a].
  - unfold truncated at 2 3. cbn [record_msg record_args].
    destruct (PyStr.contains blob_marker s) eqn:H.
    + destruct (truncate_blob_again s H) as (Hc & Ht).
      unfold truncated. cbn [record_msg record_args]. now rewrite Hc, Ht.
    + unfold truncated. rewrite truncate_args_msg. cbn [record_msg]. rewrite H.
      apply truncate_args_again.
  - unfold truncated at 2 3. cbn [record_msg record_args].
    unfold truncated. rewrite truncate_args_msg. cbn [record_msg].
    apply truncate_args_again.
Qed.

(** X21: a message that holds a blob is cut at the first "Blob(data=":
    what the base formatter is given is the text before that marker
    (which holds no marker itself) followed by "Blob(data=<truncated>)".
    Everything after the marker is dropped, the payload and also
    whatever the message went on to say after the blob; and the arguments
    of such a record are passed on as they are, blobs included. *)
Theorem blob_payload_dropped (super_format : log_record -> string)
    (s : string) (arguments : option (list field)) :
  PyStr.contains blob_marker s = true ->
  exists before rest,
    s = (before ++ blob_marker ++ rest)%string
    /\ PyStr.contains blob_marker before = false
    /\ format super_format (LogRecord (Text s) arguments)
       = super_format
           (LogRecord (Text (before ++ "Blob(data=<truncated>)")) arguments).
Proof.
  intros H. destruct (split_head_found blob_marker s H) as (rest & Hs).
  exists (split_head blob_marker s), rest. split; [exact Hs | split].
  - apply split_head_clean. discriminate.
  - unfold format, truncated. cbn [record_msg record_args]. now rewrite H.
Qed.

(** How a record reads when the message is printed as it is. *)
Definition message_only (r : log_record) : string :=
  match record_msg r with
  | Text s => s
  | Object _ => ""
  end.

Lemma blob_payload_dropped_witness :
  exists before rest,
    "sent Blob(data=abc) ok" = (before ++ blob_marker ++ rest)%string
    /\ PyStr.contains blob_marker before = false
    /\ format message_only (LogRecord (Text "sent Blob(data=abc) ok") None)
       = message_only
           (LogRecord (Text (before ++ "Blob(data=<truncated>)")) None).
Proof.
  exact (blob_payload_dropped message_only "sent Blob(data=abc) ok" None eq_refl).
Defined.

(** X22: the formatter can be applied twice.  The handlers of the root
    logger share one formatter, and [format] rewrites the record in
    place, so the second handler formats the record the first one left:
    it gets the same text, whatever the message and the arguments are. *)
Theorem format_twice_same_text (super_format : log_record -> string)
    (r : log_record) :
  format super_format (truncated r) = format super_format r.
Proof. unfold format. now rewrite truncated_again. Qed.
